(** * Executive dashboard: loader, filter engine and aggregator

    A shallow embedding of [app.py]: [load_and_prepare], [apply_filters],
    [calculate_kpis], [to_excel_bytes] and the grouped breakdown of the
    Details page, with the properties its specification states about them.

    A numeric column is an [int64], [uint64] or [float64] column, as pandas
    decides from its cells.  Integers wrap around as in numpy; floats are the
    IEEE 754 binary64 floats of the kernel, so a missing value is NaN as in
    pandas and overflow, infinities and rounding are those of the program. *)

From Stdlib Require Import Floats ZArith List String Ascii Bool Lia.
From Stdlib Require Import Sorted Permutation.
Import ListNotations.

#[local] Set Warnings "-inexact-float".
#[local] Open Scope Z_scope.

(** ** Option as the error monad: [None] is a raised exception *)

Definition bind {A B : Type} (m : option A) (k : A -> option B) : option B :=
  match m with
  | Some a => k a
  | None => None
  end.

Notation "x <- m ;; k" := (bind m (fun x => k))
  (at level 61, m at next level, right associativity).

Fixpoint mapM {A B : Type} (f : A -> option B) (l : list A) : option (list B) :=
  match l with
  | [] => Some []
  | a :: l' => b <- f a ;; bs <- mapM f l' ;; Some (b :: bs)
  end.

(** Keep the defined images of a partial map, in order. *)
Fixpoint choose {A B : Type} (f : A -> option B) (l : list A) : list B :=
  match l with
  | [] => []
  | a :: l' =>
      match f a with
      | Some b => b :: choose f l'
      | None => choose f l'
      end
  end.

(** ** float64 columns *)

Module F64.

Definition isna (x : float) : bool := is_nan x.
Definition notna (x : float) : bool := negb (is_nan x).

(** [Series.fillna(v)], one element. *)
Definition fillna (v x : float) : float := if isna x then v else x.

(** Python's [x != 0] on a float: true for NaN, false for both zeros. *)
Definition ne0 (x : float) : bool := negb (x =? 0)%float.

(** Conversion of an integer, rounded to nearest even. *)
Definition of_Z (n : Z) : float :=
  SF2Prim (binary_normalize prec emax n 0 false).

(** [Series.sum()] and the ["sum"] of a group on a float64 column:
    [skipna=True], [min_count=0]; an empty column sums to 0.  The additions
    are written left to right.  numpy adds a long column pairwise in blocks
    and the groupby sum is compensated, so the last bits of a sum of many
    numbers can differ from the program's; no property below depends on
    the order of the additions. *)
Definition sum (l : list float) : float :=
  fold_left PrimFloat.add (filter notna l) 0%float.

(** [Series.mean()]: the sum of the non-missing values over their number,
    and NaN when there is none. *)
Definition mean (l : list float) : float :=
  let count := List.length (filter notna l) in
  if (0 <? Z.of_nat count)
  then (sum l / of_Z (Z.of_nat count))%float
  else nan.

Definition int64_min : Z := - 2 ^ 63.
Definition int64_max : Z := 2 ^ 63 - 1.

(** Truncation toward zero of a finite float. *)
Definition trunc (x : float) : option Z :=
  match Prim2SF x with
  | S754_zero _ => Some 0
  | S754_finite s m e =>
      let v := if 0 <=? e then Z.pos m * 2 ^ e else Z.pos m / 2 ^ (- e) in
      Some (if s then - v else v)
  | S754_infinity _ => None
  | S754_nan => None
  end.

(** [Series.astype(int)] on one element: pandas raises on NaN and on an
    infinity; a finite value is truncated, and one that does not fit int64
    comes out of the x86-64 conversion as the minimum int64. *)
Definition astype_int (x : float) : option Z :=
  v <- trunc x ;;
  Some (if (int64_min <=? v) && (v <=? int64_max) then v else int64_min).

End F64.

(** ** Values and dtypes of numeric columns *)

(** What [pd.to_numeric] makes of one cell: a Python int, or a float (NaN
    for a null or for what [errors="coerce"] gives up on). *)
Inductive scalar :=
| Whole (n : Z)
| Real (x : float).

(** The float64 value of a scalar. *)
Definition scalar_float (v : scalar) : float :=
  match v with
  | Whole n => F64.of_Z n
  | Real x => x
  end.

Coercion scalar_float : scalar >-> float.

Inductive dtype := int64 | uint64 | float64.

Definition uint64_max : Z := 2 ^ 64 - 1.

(** The integers of a column that holds nothing else. *)
Fixpoint wholes (column : list scalar) : option (list Z) :=
  match column with
  | [] => Some []
  | Whole n :: l => option_map (cons n) (wholes l)
  | Real _ :: _ => None
  end.

(** The dtype that pandas gives a column of scalars: float64 as soon as
    one is a float (a null is NaN) or an integer is outside both integer
    ranges; uint64 when an integer exceeds int64 and none is negative,
    float64 when one is negative; int64 otherwise. *)
Definition dtype_of (column : list scalar) : dtype :=
  match wholes column with
  | None => float64
  | Some ns =>
      if existsb (fun n => (n <? F64.int64_min) || (uint64_max <? n)) ns
      then float64
      else if existsb (fun n => F64.int64_max <? n) ns
           then if existsb (fun n => n <? 0) ns then float64 else uint64
           else int64
  end.

(** An element of a numeric column. *)
Inductive number :=
| Int64 (n : Z)
| UInt64 (n : Z)
| Float64 (x : float).

(** The float64 value of an element: what numpy and Python make of it
    where it meets a float. *)
Definition to_float (v : number) : float :=
  match v with
  | Int64 n => F64.of_Z n
  | UInt64 n => F64.of_Z n
  | Float64 x => x
  end.

Coercion to_float : number >-> float.

(** A scalar as an element of a column of dtype [d]. *)
Definition as_dtype (d : dtype) (v : scalar) : number :=
  match v, d with
  | Whole n, int64 => Int64 n
  | Whole n, uint64 => UInt64 n
  | Whole n, float64 => Float64 (F64.of_Z n)
  | Real x, _ => Float64 x
  end.

(** Two's complement reduction to int64, and reduction to uint64. *)
Definition wrap_int64 (z : Z) : Z := (z + 2 ^ 63) mod 2 ^ 64 - 2 ^ 63.
Definition wrap_uint64 (z : Z) : Z := z mod 2 ^ 64.

(** [Series.fillna(0)], one element: an integer column has no null. *)
Definition fillna0 (v : number) : number :=
  match v with
  | Float64 x => Float64 (F64.fillna 0 x)
  | _ => v
  end.

(** [*] on two elements: in int64 or in uint64 when both are, wrapping
    around; in float64 otherwise. *)
Definition product (a b : number) : number :=
  match a, b with
  | Int64 m, Int64 n => Int64 (wrap_int64 (m * n))
  | UInt64 m, UInt64 n => UInt64 (wrap_uint64 (m * n))
  | _, _ => Float64 (to_float a * to_float b)
  end.

(** [!= 0] on an element. *)
Definition nonzero (v : number) : bool :=
  match v with
  | Int64 n => negb (n =? 0)
  | UInt64 n => negb (n =? 0)
  | Float64 x => F64.ne0 x
  end.

Fixpoint int64s (column : list number) : option (list Z) :=
  match column with
  | [] => Some []
  | Int64 n :: l => option_map (cons n) (int64s l)
  | _ :: _ => None
  end.

Fixpoint uint64s (column : list number) : option (list Z) :=
  match column with
  | [] => Some []
  | UInt64 n :: l => option_map (cons n) (uint64s l)
  | _ :: _ => None
  end.

(** [Series.sum()] and the ["sum"] of a group: an integer column is added
    in its own dtype, wrapping around; a float64 column as [F64.sum]. *)
Definition column_sum (column : list number) : number :=
  match int64s column with
  | Some ns => Int64 (wrap_int64 (fold_left Z.add ns 0))
  | None =>
      match uint64s column with
      | Some ns => UInt64 (wrap_uint64 (fold_left Z.add ns 0))
      | None => Float64 (F64.sum (map to_float column))
      end
  end.

(** ** Timestamps and the [.dt] accessors

    A [datetime64[ns]] value is its count of nanoseconds since 1970-01-01;
    a [datetime.date] is its count of days since then. *)

Module Calendar.

Definition ns_per_day : Z := 86400 * 1000000000.

(** [pd.to_datetime(d)] of a date: midnight of that day. *)
Definition to_datetime (d : Z) : Z := d * ns_per_day.

Definition days (t : Z) : Z := t / ns_per_day.

(** Proleptic Gregorian year and month of a day count. *)
Definition civil (z0 : Z) : Z * Z :=
  let z := z0 + 719468 in
  let era := z / 146097 in
  let doe := z - era * 146097 in
  let yoe := (doe - doe / 1460 + doe / 36524 - doe / 146096) / 365 in
  let doy := doe - (365 * yoe + yoe / 4 - yoe / 100) in
  let mp := (5 * doy + 2) / 153 in
  let m := if mp <? 10 then mp + 3 else mp - 9 in
  let y := yoe + era * 400 in
  (if m <=? 2 then y + 1 else y, m).

Definition year (t : Z) : Z := fst (civil (days t)).
Definition month (t : Z) : Z := snd (civil (days t)).
Definition quarter (t : Z) : Z := (month t - 1) / 3 + 1.

Definition digit (n : Z) : string :=
  String (ascii_of_nat (48 + Z.to_nat (n mod 10))) EmptyString.

(** [width] decimal digits of [n], zero padded. *)
Fixpoint decimal (width : nat) (n : Z) : string :=
  match width with
  | O => EmptyString
  | S w => (decimal w (n / 10) ++ digit n)%string
  end.

(** [to_period("M").astype(str)]: the label [YYYY-MM]. *)
Definition year_month (t : Z) : string :=
  (decimal 4 (year t) ++ "-" ++ decimal 2 (month t))%string.

End Calendar.

(** ** Cells, labels and the sheet read from the file *)

(** A value of an identifier or categorical column: text or an integer. *)
Inductive label :=
| Str (s : string)
| Int (n : Z).

Definition label_eq_dec (a b : label) : {a = b} + {a <> b}.
Proof. decide equality; [apply string_dec | apply Z.eq_dec]. Defined.

Definition key_eq_dec (a b : option label) : {a = b} + {a <> b}.
Proof. decide equality; apply label_eq_dec. Defined.

(** A spreadsheet cell of a column that the loader coerces. *)
Inductive cell :=
| Blank
| Text (s : string)
| Number (x : float)
| Integer (n : Z)
| Date (t : Z).

Module Raw.

(** One line of the source sheet, by source column; [None] and [Blank] are
    the empty cell. *)
Record row := {
  InvoiceNo : option label;
  Description : option label;
  CustomerID : cell;
  Country : option label;
  Type' : option label;
  StockCode : option label;
  InvoiceDate : cell;
  Quantity : cell;
  UnitPrice : cell
}.

End Raw.

(** What [pd.read_excel] returns: the header as written in the file and the
    lines below it.  The header cells are text: on a header cell that is a
    number or a date line 24 raises AttributeError, and such a file is not a
    [Sheet].  The fields of a line under a name the header lacks are never
    read. *)
Record Sheet := {
  columns : list string;
  rows : list Raw.row
}.

(** [str.strip()] on a header name, a UTF-8 string: it removes the
    characters that Python holds for white space, which are U+0009 to
    U+000D, U+001C to U+0020, U+0085, U+00A0, U+1680, U+2000 to U+200A,
    U+2028, U+2029, U+202F, U+205F and U+3000. *)
Definition space1 (a : ascii) : bool :=
  let a := nat_of_ascii a in
  ((9 <=? a) && (a <=? 13) || (28 <=? a) && (a <=? 32))%nat.

Definition space2 (a b : ascii) : bool :=
  let a := nat_of_ascii a in
  let b := nat_of_ascii b in
  ((a =? 194) && ((b =? 133) || (b =? 160)))%nat.

Definition space3 (a b c : ascii) : bool :=
  let a := nat_of_ascii a in
  let b := nat_of_ascii b in
  let c := nat_of_ascii c in
  ((a =? 225) && (b =? 154) && (c =? 128)
   || (a =? 226) && (b =? 128)
      && ((128 <=? c) && (c <=? 138) || (c =? 168) || (c =? 169) || (c =? 175))
   || (a =? 226) && (b =? 129) && (c =? 159)
   || (a =? 227) && (b =? 128) && (c =? 128))%nat.

(** The bytes left once the leading white space is gone; with [backwards]
    the bytes come last first, as do the bytes of each character. *)
Fixpoint drop_spaces (backwards : bool) (l : list ascii) : list ascii :=
  match l with
  | [] => []
  | a :: l1 =>
      if space1 a then drop_spaces backwards l1
      else
        match l1 with
        | [] => l
        | b :: l2 =>
            if (if backwards then space2 b a else space2 a b)
            then drop_spaces backwards l2
            else
              match l2 with
              | [] => l
              | c :: l3 =>
                  if (if backwards then space3 c b a else space3 a b c)
                  then drop_spaces backwards l3
                  else l
              end
        end
  end.

Definition lstrip (s : string) : string :=
  string_of_list_ascii (drop_spaces false (list_ascii_of_string s)).

Definition rstrip (s : string) : string :=
  string_of_list_ascii
    (rev (drop_spaces true (rev (list_ascii_of_string s)))).

Definition strip (s : string) : string := rstrip (lstrip s).

(** No white space leads the bytes [l]; with [backwards], as for
    [drop_spaces]. *)
Definition stripped (backwards : bool) (l : list ascii) : Prop :=
  match l with
  | [] => True
  | a :: l1 =>
      space1 a = false
      /\ match l1 with
         | [] => True
         | b :: l2 =>
             (if backwards then space2 b a else space2 a b) = false
             /\ match l2 with
                | [] => True
                | c :: l3 =>
                    (if backwards then space3 c b a else space3 a b c) = false
                end
         end
  end.

(** [c in df.columns] *)
Definition has (df_columns : list string) (c : string) : bool :=
  existsb (String.eqb c) df_columns.

(** The columns of the sheet that lines 26 to 31 parse, and all those that
    the loader reads. *)
Definition parsed_columns : list string :=
  ["InvoiceDate"; "Quantity"; "UnitPrice"; "CustomerID"]%string.

Definition source_columns : list string :=
  parsed_columns
  ++ ["InvoiceNo"; "Description"; "Country"; "Type"; "StockCode"]%string.

(** No column that the loader reads is there twice.  With two columns of
    one name [df[c]] is a frame, not a column: [pd.to_datetime] and
    [pd.to_numeric] raise on it, and so does the assignment of
    [df.get(c)] to a single column.  A table with two columns of one name
    is not a [Table]. *)
Definition unambiguous (df_columns : list string) : bool :=
  forallb (fun c => (List.length (filter (String.eqb c) df_columns) <=? 1)%nat)
          source_columns.

(** [df.get(c)]: the column, or nothing (a column of nulls once assigned). *)
Definition get {A : Type} (df_columns : list string) (c : string) (null v : A) : A :=
  if has df_columns c then v else null.

(** ** The normalized table *)

Record Row := {
  Order_ID : option label;
  Product_Name : option label;
  Customer_ID : Z;
  Region : option label;
  Segment : option label;
  Category : option label;
  Sub_Category : option label;
  Order_Date : Z;
  Quantity : number;
  UnitPrice : number;
  Sales : number;
  Profit : float;
  Discount : float;
  Year : Z;
  Month : Z;
  Quarter : Z;
  Year_Month : string;
  Profit_Margin : float
}.

Definition Table := list Row.

(** [margin_map = {"Retail": 0.22, "B2B": 0.14}] *)
Definition margin_map : list (label * float) :=
  [(Str "Retail", 0.22%float); (Str "B2B", 0.14%float)].

(** [Series.map(d)] on one element: the entry of the dict, NaN without one
    (a null element has none). *)
Fixpoint lookup (d : list (label * float)) (k : label) : float :=
  match d with
  | [] => nan
  | (k', v) :: d' => if label_eq_dec k k' then v else lookup d' k
  end.

Definition map_dict (d : list (label * float)) (x : option label) : float :=
  match x with
  | Some k => lookup d k
  | None => nan
  end.

(** [lambda r: (r["Profit"] / r["Sales"]) * 100 if r["Sales"] != 0 else 0] *)
Definition profit_margin_of (profit : float) (sales : number) : float :=
  if nonzero sales then (profit / sales * 100)%float else 0%float.

Section Loader.

(** The two parsers of pandas, on the cells that are not already of the
    wanted kind: [pd.to_numeric] gives an integer, a float or NaN, and
    [pd.to_datetime] a timestamp or NaT ([None]), where NaN and NaT are
    what [errors="coerce"] gives up with. *)
Variable coerce_numeric : cell -> scalar.
Variable coerce_datetime : cell -> option Z.

Definition to_numeric (c : cell) : scalar :=
  match c with
  | Blank => Real nan
  | Number x => Real x
  | Integer n => Whole n
  | Text _ | Date _ => coerce_numeric c
  end.

Definition to_datetime (c : cell) : option Z :=
  match c with
  | Blank => None
  | Date t => Some t
  | Text _ | Number _ | Integer _ => coerce_datetime c
  end.

(** Lines 33 to 56 on one line of the sheet whose date is [t] and whose
    customer id ends as [cid], in a sheet whose Quantity and UnitPrice
    columns have the dtypes [dq] and [dp]: every step is element-wise. *)
Definition prepare (cols : list string) (dq dp : dtype) (r : Raw.row)
    (t cid : Z) : Row :=
  let quantity := as_dtype dq (to_numeric (Raw.Quantity r)) in
  let unitprice := as_dtype dp (to_numeric (Raw.UnitPrice r)) in
  let segment := get cols "Type" None (Raw.Type' r) in
  let sales := product (fillna0 quantity) (fillna0 unitprice) in
  let profit := (sales * F64.fillna 0.18 (map_dict margin_map segment))%float in
  {| Order_ID := get cols "InvoiceNo" None (Raw.InvoiceNo r);
     Product_Name := get cols "Description" None (Raw.Description r);
     Customer_ID := cid;
     Region := get cols "Country" None (Raw.Country r);
     Segment := segment;
     Category := get cols "Type" None (Raw.Type' r);
     Sub_Category := get cols "StockCode" None (Raw.StockCode r);
     Order_Date := t;
     Quantity := quantity;
     UnitPrice := unitprice;
     Sales := sales;
     Profit := profit;
     Discount := 0%float;
     Year := Calendar.year t;
     Month := Calendar.month t;
     Quarter := Calendar.quarter t;
     Year_Month := Calendar.year_month t;
     Profit_Margin := profit_margin_of profit sales |}.

(** One cell of the customer id column before line 59. *)
Definition customer (cols : list string) (r : Raw.row) : scalar :=
  get cols "CustomerID" (Real nan) (to_numeric (Raw.CustomerID r)).

(** Line 58 on one line: it stays when its date is not NaT. *)
Definition dated (r : Raw.row) : option (Raw.row * Z) :=
  option_map (pair r) (to_datetime (Raw.InvoiceDate r)).

(** Line 59 on one element of a customer id column of dtype [dc]:
    [fillna(-1).astype(int)].  An integer column has no null and is cast
    to int64; on a float64 column the cast raises on an infinite id. *)
Definition customer_id (dc : dtype) (c : scalar) : option Z :=
  match as_dtype dc c with
  | Int64 n => Some n
  | UInt64 n => Some (wrap_int64 n)
  | Float64 x => F64.astype_int (F64.fillna (-1) x)
  end.

Definition finalize (cols : list string) (dq dp dc : dtype)
    (rt : Raw.row * Z) : option Row :=
  cid <- customer_id dc (customer cols (fst rt)) ;;
  Some (prepare cols dq dp (fst rt) (snd rt) cid).

(** The dtypes of the three numeric columns after lines 29 to 31: those of
    the whole columns, the lines without a date included. *)
Definition quantity_dtype (df : Sheet) : dtype :=
  dtype_of (map (fun r => to_numeric (Raw.Quantity r)) (rows df)).

Definition unitprice_dtype (df : Sheet) : dtype :=
  dtype_of (map (fun r => to_numeric (Raw.UnitPrice r)) (rows df)).

Definition customer_dtype (df : Sheet) : dtype :=
  dtype_of (map (customer (map strip (columns df))) (rows df)).

(** [load_and_prepare].  Reading ["Quantity"] or ["UnitPrice"] raises
    KeyError when the header lacks it, [.dt] raises on the all-null column
    that a missing ["InvoiceDate"] leaves, and a name that the loader reads
    raises where it is there twice.  The derived columns are computed line
    by line, so deriving them for the lines that line 58 keeps gives the
    table that the program returns. *)
Definition load_and_prepare (df : Sheet) : option Table :=
  let cols := map strip (columns df) in
  if has cols "Quantity" && has cols "UnitPrice" && has cols "InvoiceDate"
     && unambiguous cols
  then
    mapM (finalize cols (quantity_dtype df) (unitprice_dtype df)
                   (customer_dtype df))
         (choose dated (rows df))
  else None.

End Loader.

(** ** Filter engine *)

(** The [filters] dict: [year] is [None] for ["All"]; the three selections
    are the lists of the multiselects; [date_range] is the pair that
    [start, end = filters["date_range"]] takes apart, two dates. *)
Record Filters := {
  year : option Z;
  category : list (option label);
  region : list (option label);
  segment : list (option label);
  date_range : Z * Z
}.

(** [Series.isin(values)] on one element. *)
Definition isin (values : list (option label)) (x : option label) : bool :=
  existsb (fun v => if key_eq_dec x v then true else false) values.

Definition apply_filters (df : Table) (filters : Filters) : Table :=
  let out := df in
  let out :=
    match year filters with
    | Some y => filter (fun r => Year r =? y) out
    | None => out
    end in
  let out :=
    filter (fun r => isin (category filters) (Category r)
                     && isin (region filters) (Region r)
                     && isin (segment filters) (Segment r)) out in
  let '(start, end') := date_range filters in
  filter (fun r => (Calendar.to_datetime start <=? Order_Date r)
                   && (Order_Date r <=? Calendar.to_datetime end')) out.

(** ** Aggregator *)

(** [Series.nunique()] of a column whose nulls are already dropped. *)
Definition nunique {A : Type} (eq_dec : forall a b : A, {a = b} + {a <> b})
    (l : list A) : nat :=
  List.length (nodup eq_dec l).

(** The [dict] of KPIs, each value as its float64, which is how the page
    formats them. *)
Record Kpis := {
  total_sales : float;
  total_profit : float;
  total_orders : nat;
  total_customers : nat;
  avg_order_value : float;
  profit_margin : float
}.

Definition calculate_kpis (df : Table) : Kpis :=
  let sales := column_sum (map Sales df) in
  let profit := F64.sum (map Profit df) in
  {| total_sales := sales;
     total_profit := profit;
     total_orders := nunique label_eq_dec (choose Order_ID df);
     total_customers := nunique Z.eq_dec (map Customer_ID df);
     avg_order_value := F64.mean (map to_float (map Sales df));
     profit_margin :=
       if nonzero sales then (profit / sales * 100)%float else 0%float |}.

(** The choices of the "Group by" selectbox. *)
Inductive Dimension :=
| By_Product_Name
| By_Sub_Category
| By_Region
| By_Segment
| By_Customer_ID.

Definition dimension_name (d : Dimension) : string :=
  match d with
  | By_Product_Name => "Product Name"
  | By_Sub_Category => "Sub-Category"
  | By_Region => "Region"
  | By_Segment => "Segment"
  | By_Customer_ID => "Customer ID"
  end.

Definition group_key (d : Dimension) (r : Row) : option label :=
  match d with
  | By_Product_Name => Product_Name r
  | By_Sub_Category => Sub_Category r
  | By_Region => Region r
  | By_Segment => Segment r
  | By_Customer_ID => Some (Int (Customer_ID r))
  end.

(** Order of group keys: integers before text, each kind in its own order. *)
Definition label_leb (a b : label) : bool :=
  match a, b with
  | Int m, Int n => m <=? n
  | Int _, Str _ => true
  | Str _, Int _ => false
  | Str s, Str t => String.leb s t
  end.

Section Sorting.

Context {A : Type} (before : A -> A -> bool).

(** Insertion where [before x y] allows [x] to precede [y]; an element
    inserted from the left stays ahead of those it ties with. *)
Fixpoint insert (x : A) (l : list A) : list A :=
  match l with
  | [] => [x]
  | y :: l' => if before x y then x :: l else y :: insert x l'
  end.

Definition sort (l : list A) : list A := fold_right insert [] l.

End Sorting.

Module Details.

(** A line of [groupby(...).agg(...)], each sum as its float64. *)
Record agg := {
  key : label;
  Sales : float;
  Profit : float;
  Quantity : float;
  Orders : nat
}.

(** A line of the finished breakdown. *)
Record row := {
  line : agg;
  Profit_Margin_pct : float
}.

End Details.

(** The lines of one group. *)
Definition members (groupby : Dimension) (df : Table) (k : label) : Table :=
  filter (fun r => if key_eq_dec (group_key groupby r) (Some k) then true else false) df.

(** [groupby(groupby)]: the distinct non-null keys, ascending. *)
Definition group_keys (groupby : Dimension) (df : Table) : list label :=
  sort label_leb (nodup label_eq_dec (choose (group_key groupby) df)).

(** [.agg(Sales=("Sales","sum"), Profit=("Profit","sum"),
    Quantity=("Quantity","sum"), Orders=("Order ID","count"))] on one group;
    ["count"] is the number of non-null elements. *)
Definition aggregate (groupby : Dimension) (df : Table) (k : label) : Details.agg :=
  let g := members groupby df k in
  {| Details.key := k;
     Details.Sales := column_sum (map Sales g);
     Details.Profit := F64.sum (map Profit g);
     Details.Quantity := column_sum (map Quantity g);
     Details.Orders := List.length (choose Order_ID g) |}.

(** [.sort_values("Sales", ascending=False)]: descending, NaN last, ties in
    the order they had. *)
Definition sort_values (l : list Details.agg) : list Details.agg :=
  sort (fun a b => (Details.Sales b <=? Details.Sales a)%float)
       (filter (fun a => F64.notna (Details.Sales a)) l)
  ++ filter (fun a => F64.isna (Details.Sales a)) l.

(** [grouped["Profit Margin %"] = grouped["Profit"] / grouped["Sales"] * 100]
    and then [grouped.fillna(0)], on one line. *)
Definition finish (a : Details.agg) : Details.row :=
  let pct := (Details.Profit a / Details.Sales a * 100)%float in
  {| Details.line :=
       {| Details.key := Details.key a;
          Details.Sales := F64.fillna 0 (Details.Sales a);
          Details.Profit := F64.fillna 0 (Details.Profit a);
          Details.Quantity := F64.fillna 0 (Details.Quantity a);
          Details.Orders := Details.Orders a |};
     Details.Profit_Margin_pct := F64.fillna 0 pct |}.

Definition grouped (groupby : Dimension) (filtered_df : Table) : list Details.row :=
  map finish (sort_values (map (aggregate groupby filtered_df)
                               (group_keys groupby filtered_df))).

(** ** Export *)

(** A data frame as the writer sees it: the name of its index ([None] for
    the default range index), its column names, and each line as its index
    value and its values by column. *)
Record DataFrame := {
  index_name : option string;
  column_names : list string;
  records : list (cell * list cell)
}.

Definition Worksheet := list (list cell).

Definition cell_of_label (k : label) : cell :=
  match k with
  | Str s => Text s
  | Int n => Integer n
  end.

(** The breakdown as a frame: the group key is its index. *)
Definition frame_of (groupby : Dimension) (g : list Details.row) : DataFrame :=
  {| index_name := Some (dimension_name groupby);
     column_names := ["Sales"; "Profit"; "Quantity"; "Orders"; "Profit Margin %"]%string;
     records :=
       map (fun r =>
              (cell_of_label (Details.key (Details.line r)),
               [Number (Details.Sales (Details.line r));
                Number (Details.Profit (Details.line r));
                Number (Details.Quantity (Details.line r));
                Integer (Z.of_nat (Details.Orders (Details.line r)));
                Number (Details.Profit_Margin_pct r)]))
           g |}.

(** [DataFrame.reset_index()]: the index becomes the leading column, under
    its name (["index"] without one), and a fresh range index replaces it. *)
Fixpoint renumber (i : Z) (l : list (cell * list cell)) : list (cell * list cell) :=
  match l with
  | [] => []
  | (k, vs) :: l' => (Integer i, k :: vs) :: renumber (i + 1) l'
  end.

Definition reset_index (df : DataFrame) : DataFrame :=
  {| index_name := None;
     column_names :=
       match index_name df with
       | Some n => n
       | None => "index"%string
       end :: column_names df;
     records := renumber 0 (records df) |}.

(** [DataFrame.to_excel(writer, index=...)]: the header line, then the
    lines; the index leads both only when [index] is set. *)
Definition to_excel (index : bool) (df : DataFrame) : Worksheet :=
  let name :=
    match index_name df with
    | Some n => Text n
    | None => Blank
    end in
  if index
  then (name :: map Text (column_names df))
         :: map (fun r => fst r :: snd r) (records df)
  else map Text (column_names df) :: map snd (records df).

Section Exporting.

(** The openpyxl writer: the bytes of a workbook holding one worksheet. *)
Variable save : Worksheet -> list Byte.byte.

(** [to_excel_bytes]: [df.to_excel(writer, index=False)]. *)
Definition to_excel_bytes (df : DataFrame) : list Byte.byte :=
  save (to_excel false df).

(** The argument of the download button:
    [to_excel_bytes(grouped.reset_index())]. *)
Definition download (groupby : Dimension) (g : list Details.row) : list Byte.byte :=
  to_excel_bytes (reset_index (frame_of groupby g)).

End Exporting.

(** ** What the specification words add to the code *)

(** The margin rate of a segment, as the specification gives it. *)
Definition margin_rate (segment : option label) : float :=
  match segment with
  | Some (Str s) =>
      if (s =? "Retail")%string then 0.22%float
      else if (s =? "B2B")%string then 0.14%float
      else 0.18%float
  | _ => 0.18%float
  end.

(** All the criteria of [apply_filters] on one line. *)
Definition matches (filters : Filters) (r : Row) : bool :=
  match year filters with
  | Some y => Year r =? y
  | None => true
  end
  && (isin (category filters) (Category r)
      && isin (region filters) (Region r)
      && isin (segment filters) (Segment r))
  && ((Calendar.to_datetime (fst (date_range filters)) <=? Order_Date r)
      && (Order_Date r <=? Calendar.to_datetime (snd (date_range filters)))).

(** The criteria with the category selection left out. *)
Definition matches_but_category (filters : Filters) (r : Row) : bool :=
  match year filters with
  | Some y => Year r =? y
  | None => true
  end
  && (isin (region filters) (Region r) && isin (segment filters) (Segment r))
  && ((Calendar.to_datetime (fst (date_range filters)) <=? Order_Date r)
      && (Order_Date r <=? Calendar.to_datetime (snd (date_range filters)))).

(** ** The Gregorian calendar

    The calendar that the [.dt] accessors are to agree with, from its
    rules and carried back and forth without end. *)

Module Gregorian.

(** A year is a leap year when 4 divides it, unless 100 divides it and 400
    does not. *)
Definition is_leap (y : Z) : bool :=
  (y mod 4 =? 0) && negb (y mod 100 =? 0) || (y mod 400 =? 0).

Definition days_in_month (y m : Z) : Z :=
  if m =? 2 then (if is_leap y then 29 else 28)
  else if (m =? 4) || (m =? 6) || (m =? 9) || (m =? 11) then 30
  else 31.

Definition days_in_year (y : Z) : Z := if is_leap y then 366 else 365.

(** The leap years from year 1 to the year before [y]. *)
Definition leaps_before (y : Z) : Z :=
  (y - 1) / 4 - (y - 1) / 100 + (y - 1) / 400.

(** The days from 1 January 1970 to 1 January of [y]. *)
Definition days_before_year (y : Z) : Z :=
  365 * (y - 1970) + (leaps_before y - leaps_before 1970).

(** The days of the months of [y] before month [m]. *)
Definition days_before_month (y m : Z) : Z :=
  fold_right Z.add 0
    (map (days_in_month y) (map Z.of_nat (seq 1 (Z.to_nat (m - 1))))).

(** The days from 1 January 1970 to day [d] of month [m] of year [y]. *)
Definition day_number (y m d : Z) : Z :=
  days_before_year y + days_before_month y m + (d - 1).

Definition valid (y m d : Z) : Prop :=
  1 <= m <= 12 /\ 1 <= d <= days_in_month y m.

(** [Calendar.civil] is right on every day of year [y]. *)
Definition civil_agrees (y : Z) : bool :=
  forallb
    (fun m =>
       forallb
         (fun d =>
            let '(y', m') := Calendar.civil (day_number y m d) in
            (y' =? y) && (m' =? m))
         (map Z.of_nat (seq 1 (Z.to_nat (days_in_month y m)))))
    (map Z.of_nat (seq 1 12)).

End Gregorian.

(** ** Shapes of binary64 values *)

(** [below B x]: [x] is a zero, or finite with the digits of its mantissa
    plus its exponent at most [B], that is, of magnitude under [2 ^ B]. *)
Definition below (B : Z) (x : spec_float) : Prop :=
  match x with
  | S754_zero _ => True
  | S754_finite _ m e => Z.pos (digits2_pos m) + e <= B
  | _ => False
  end.

(** A rate between 1/8 and 1/4 with a full mantissa, as the three margin
    rates are. *)
Definition margin_shape (rate : float) : Prop :=
  exists m, Prim2SF rate = S754_finite false m (-55)
            /\ Z.pos (digits2_pos m) = 53.

(** What rounding in the normal range gives: a mantissa of 53 digits at the
    exponent [lo] or the next, or an infinity when that exponent is beyond
    the largest. *)
Definition rounded (sx : bool) (lo : Z) (x : spec_float) : Prop :=
  exists m e,
    x = (if e <=? 971 then S754_finite sx m e else S754_infinity sx)
    /\ Z.pos (digits2_pos m) = 53
    /\ lo <= e <= lo + 1.

(** ** Sample data *)

(** Parsers that coerce every cell they are asked about to null. *)
Definition no_number (_ : cell) : scalar := Real nan.
Definition no_date (_ : cell) : option Z := None.

Definition source_header : list string :=
  ["InvoiceNo"; "StockCode"; "Description"; " Quantity"; "InvoiceDate";
   "UnitPrice "; "CustomerID"; "Country"; "Type"]%string.

Definition sale (invoice : Z) (stock product : string) (quantity unitprice : cell)
    (day : cell) (customer_id : cell) (country : string) (type : option label)
    : Raw.row :=
  {| Raw.InvoiceNo := Some (Int invoice);
     Raw.Description := Some (Str product);
     Raw.CustomerID := customer_id;
     Raw.Country := Some (Str country);
     Raw.Type' := type;
     Raw.StockCode := Some (Str stock);
     Raw.InvoiceDate := day;
     Raw.Quantity := quantity;
     Raw.UnitPrice := unitprice |}.

Definition day (d : Z) : cell := Date (Calendar.to_datetime d).

(** Two lines of one invoice and a third line, all sold in one country; one
    customer id is blank and one date is. *)
Definition sample_sheet : Sheet :=
  {| columns := source_header;
     rows :=
       [sale 536365 "85123A" "LANTERN" (Integer 2) (Number 10) (day 15042)
             (Integer 17850) "Greece" (Some (Str "Retail"));
        sale 536365 "71053" "HOLDER" (Integer 1) (Number 50) (day 15042)
             Blank "Greece" (Some (Str "B2B"));
        sale 536366 "22752" "NESTING BOX" Blank (Number 7.5) (day 15043)
             (Integer 13047) "Greece" None;
        sale 536367 "21730" "COASTER" (Integer 3) (Number 1.5) Blank
             (Integer 13047) "Greece" (Some (Str "Retail"))] |}.

(** A sheet of integer quantities and integer prices, one of its products
    beyond int64. *)
Definition wholesale_sheet : Sheet :=
  {| columns := source_header;
     rows :=
       [sale 536371 "23843" "PAPER CRAFT" (Integer 5000000000)
             (Integer 5000000000) (day 15042) (Integer 16446) "Greece"
             (Some (Str "B2B"));
        sale 536372 "23166" "CERAMIC JAR" (Integer 94906267)
             (Integer 94906267) (day 15042) (Integer 12346) "Greece"
             (Some (Str "B2B"))] |}.

Definition craft_line : Row :=
  prepare no_number (map strip source_header) int64 int64
    (sale 536371 "23843" "PAPER CRAFT" (Integer 5000000000)
          (Integer 5000000000) (day 15042) (Integer 16446) "Greece"
          (Some (Str "B2B")))
    (Calendar.to_datetime 15042) 16446.

Definition jar_line : Row :=
  prepare no_number (map strip source_header) int64 int64
    (sale 536372 "23166" "CERAMIC JAR" (Integer 94906267)
          (Integer 94906267) (day 15042) (Integer 12346) "Greece"
          (Some (Str "B2B")))
    (Calendar.to_datetime 15042) 12346.

Definition wholesale_table : Table := [craft_line; jar_line].

(** One line whose quantity times unit price exceeds the float64 range. *)
Definition overflow_sheet : Sheet :=
  {| columns := source_header;
     rows :=
       [sale 536368 "47566" "BUNTING" (Number 1e200) (Number 1e200) (day 15042)
             (Integer 17850) "Greece" (Some (Str "Retail"))] |}.

Definition lantern_line : Row :=
  prepare no_number (map strip source_header) float64 float64
    (sale 536365 "85123A" "LANTERN" (Integer 2) (Number 10) (day 15042)
          (Integer 17850) "Greece" (Some (Str "Retail")))
    (Calendar.to_datetime 15042) 17850.

Definition holder_line : Row :=
  prepare no_number (map strip source_header) float64 float64
    (sale 536365 "71053" "HOLDER" (Integer 1) (Number 50) (day 15042)
          Blank "Greece" (Some (Str "B2B")))
    (Calendar.to_datetime 15042) (-1).

Definition box_line : Row :=
  prepare no_number (map strip source_header) float64 float64
    (sale 536366 "22752" "NESTING BOX" Blank (Number 7.5) (day 15043)
          (Integer 13047) "Greece" None)
    (Calendar.to_datetime 15043) 13047.

Definition bunting_line : Row :=
  prepare no_number (map strip source_header) float64 float64
    (sale 536368 "47566" "BUNTING" (Number 1e200) (Number 1e200) (day 15042)
          (Integer 17850) "Greece" (Some (Str "Retail")))
    (Calendar.to_datetime 15042) 17850.

(** The tables that the loader makes of the two sheets. *)
Definition sample_table : Table := [lantern_line; holder_line; box_line].
Definition overflow_table : Table := [bunting_line].

Definition sample_filters : Filters :=
  {| year := Some 2011;
     category := [Some (Str "Retail"); Some (Str "B2B"); None];
     region := [Some (Str "Greece")];
     segment := [Some (Str "Retail"); Some (Str "B2B"); None];
     date_range := (15000, 15042) |}.

Definition no_region_filters : Filters :=
  {| year := None;
     category := [Some (Str "Retail"); Some (Str "B2B"); None];
     region := [];
     segment := [Some (Str "Retail"); Some (Str "B2B"); None];
     date_range := (15000, 15100) |}.

Definition sample_frame : DataFrame :=
  frame_of By_Region (grouped By_Region sample_table).

(** ** Sidebar *)

(** [["All"] + sorted(df["Year"].dropna().unique().tolist(), reverse=True)]:
    the choices of the year selectbox, [None] for ["All"]. *)
Definition year_options (df : Table) : list (option Z) :=
  None :: map Some (sort (fun a b => b <=? a) (nodup Z.eq_dec (map Year df))).

(** [(df["Order Date"].min().date(), df["Order Date"].max().date())]: the
    default of the date picker.  The column of a table without lines has no
    minimum and no maximum (NaT), hence no dates. *)
Definition date_bounds (df : Table) : option (Z * Z) :=
  match map Order_Date df with
  | [] => None
  | t :: ts =>
      Some (Calendar.days (fold_left Z.min ts t),
            Calendar.days (fold_left Z.max ts t))
  end.

(** ** Overview page *)

(** [filtered_df.groupby(key)["Sales"].sum().reset_index()]: one line per
    distinct non-null key, ascending, with the sum of Sales of its lines. *)
Definition sales_by (key : Row -> option label) (df : Table) : list (label * float) :=
  map (fun k =>
         (k, to_float
               (column_sum
                  (map Sales
                     (filter (fun r => if key_eq_dec (key r) (Some k)
                                       then true else false) df)))))
      (sort label_leb (nodup label_eq_dec (choose key df))).

(** [monthly]: Sales by ["Year-Month"]. *)
Definition monthly (filtered_df : Table) : list (label * float) :=
  sales_by (fun r => Some (Str (Year_Month r))) filtered_df.

(** [mix]: Sales by ["Segment"]. *)
Definition mix (filtered_df : Table) : list (label * float) :=
  sales_by Segment filtered_df.

(** ** What-If page *)

Definition elasticity : float := (-1.5)%float.

(** [(1 + price_change / 100) * (1 + elasticity * price_change / 100)] for
    the integer [price_change] of the slider. *)
Definition factor (price_change : Z) : float :=
  ((1 + F64.of_Z price_change / 100)
   * (1 + elasticity * F64.of_Z price_change / 100))%float.

(** Python's [max(x, 0)]: [x] unless 0 is greater. *)
Definition max0 (x : float) : float :=
  if (x <? 0)%float then 0%float else x.

Record Estimate := {
  current_sales : float;
  current_profit : float;
  est_sales : float;
  est_profit : float
}.

Definition what_if (filtered_df : Table) (price_change : Z) : Estimate :=
  let current_sales := column_sum (map Sales filtered_df) in
  let current_profit := F64.sum (map Profit filtered_df) in
  {| current_sales := current_sales;
     current_profit := current_profit;
     est_sales := (current_sales * max0 (factor price_change))%float;
     est_profit := (current_profit * max0 (factor price_change))%float |}.

(** The positions of the price slider: the integers from -30 to 30. *)
Definition slider : list Z := map (fun i => Z.of_nat i - 30) (seq 0 61).

(** A line sold late on the day of [lantern_line]. *)
Definition evening_line : Row :=
  prepare no_number (map strip source_header) float64 float64
    (sale 536369 "22633" "HAND WARMER" (Integer 6) (Number 1.85)
          (Date (Calendar.to_datetime 15042 + 64800000000000))
          (Integer 17850) "Greece" (Some (Str "Retail")))
    (Calendar.to_datetime 15042 + 64800000000000) 17850.

(** A sheet whose only dated line has an infinite customer id. *)
Definition infinite_id_sheet : Sheet :=
  {| columns := source_header;
     rows :=
       [sale 536370 "22632" "HOT WATER BOTTLE" (Integer 1) (Number 2.1)
             (day 15042) (Number infinity) "Greece" None] |}.

(** * Properties *)

(** ** The definitions on small inputs *)

Example civil_epoch : Calendar.civil 0 = (1970, 1).
Proof. reflexivity. Qed.

Example year_month_2011 :
  Calendar.year_month (Calendar.to_datetime 15042) = "2011-03"%string.
Proof. reflexivity. Qed.

Example astype_int_truncates : F64.astype_int (-1.5)%float = Some (-1).
Proof. reflexivity. Qed.

Example astype_int_raises : F64.astype_int infinity = None.
Proof. reflexivity. Qed.

Example mean_of_nothing : F64.mean [] = nan.
Proof. reflexivity. Qed.

Example mean_skips_nan : F64.mean [1; nan; 2]%float = 1.5%float.
Proof. reflexivity. Qed.

Example strip_header : strip "  Unit Price	 " = "Unit Price"%string.
Proof. reflexivity. Qed.

(** A no-break space, U+00A0, is white space for [str.strip]. *)
Example strip_no_break_space :
  strip (String "194" (String "160" "Quantity")) = "Quantity"%string.
Proof. reflexivity. Qed.

Example dtype_of_integers : dtype_of [Whole 2; Whole (-1)] = int64.
Proof. reflexivity. Qed.

Example dtype_of_a_null : dtype_of [Whole 2; Real nan] = float64.
Proof. reflexivity. Qed.

Example dtype_of_large : dtype_of [Whole 2; Whole (2 ^ 63)] = uint64.
Proof. reflexivity. Qed.

Example dtype_of_large_and_negative :
  dtype_of [Whole (-2); Whole (2 ^ 63)] = float64.
Proof. reflexivity. Qed.

Example product_wraps :
  product (Int64 5000000000) (Int64 5000000000) = Int64 6553255926290448384.
Proof. reflexivity. Qed.

Example new_year_1970 : Gregorian.day_number 1970 1 1 = 0.
Proof. reflexivity. Qed.

Example leap_day_2000 :
  Calendar.civil (Gregorian.day_number 2000 2 29) = (2000, 2).
Proof. reflexivity. Qed.

(** A sheet with two Quantity columns cannot be loaded. *)
Example load_needs_one_quantity :
  load_and_prepare no_number no_date
    {| columns := ["Quantity"; "Quantity "; "UnitPrice"; "InvoiceDate"]%string;
       rows := [] |} = None.
Proof. reflexivity. Qed.

(** A sheet without a Quantity column cannot be loaded. *)
Example load_needs_quantity :
  load_and_prepare no_number no_date
    {| columns := ["InvoiceDate"; "UnitPrice"]%string; rows := [] |} = None.
Proof. reflexivity. Qed.

(** The two lines of the example scenario of the specification: Sales is
    20 and 50; the Profit of the second is the float next above 7. *)
Example scenario_lines :
  map (fun r => (Sales r, Profit r)) [lantern_line; holder_line]
  = [(Float64 20, 4.4%float); (Float64 50, 7.000000000000001%float)].
Proof. reflexivity. Qed.

Example scenario_kpis :
  let k := calculate_kpis [lantern_line; holder_line] in
  (total_sales k, total_profit k, profit_margin k)
  = (70, 11.400000000000002, 16.285714285714288)%float.
Proof. reflexivity. Qed.

Example filtered_sample :
  apply_filters sample_table sample_filters = [lantern_line; holder_line].
Proof. reflexivity. Qed.

Example breakdown_by_customer :
  map (fun g => (Details.key (Details.line g), Details.Sales (Details.line g)))
      (grouped By_Customer_ID sample_table)
  = [(Int (-1), 50%float); (Int 17850, 20%float); (Int 13047, 0%float)].
Proof. reflexivity. Qed.

(** ** Lists and the error monad *)

Lemma mapM_In {A B : Type} (f : A -> option B) (l : list A) (l' : list B) (b : B) :
  mapM f l = Some l' -> In b l' -> exists a, In a l /\ f a = Some b.
Proof.
  revert l'. induction l as [|a l IH]; simpl; intros l' E Hb.
  - injection E as <-. destruct Hb.
  - destruct (f a) as [b0|] eqn:Ea; simpl in E; [|discriminate].
    destruct (mapM f l) as [bs|]; simpl in E; [|discriminate].
    injection E as <-. destruct Hb as [<-|Hb].
    + exists a. auto.
    + destruct (IH bs eq_refl Hb) as (a' & Ha' & Ef). exists a'. auto.
Qed.

Lemma mapM_image {A B : Type} (f : A -> option B) (l : list A) (l' : list B) (a : A) :
  mapM f l = Some l' -> In a l -> exists b, f a = Some b /\ In b l'.
Proof.
  revert l'. induction l as [|a0 l IH]; simpl; intros l' E Ha; [destruct Ha|].
  destruct (f a0) as [b0|] eqn:Ea; simpl in E; [|discriminate].
  destruct (mapM f l) as [bs|]; simpl in E; [|discriminate].
  injection E as <-. destruct Ha as [->|Ha].
  - exists b0. simpl. auto.
  - destruct (IH bs eq_refl Ha) as (b & Eb & Hb). exists b. simpl. auto.
Qed.

Lemma choose_In {A B : Type} (f : A -> option B) (l : list A) (b : B) :
  In b (choose f l) <-> exists a, In a l /\ f a = Some b.
Proof.
  induction l as [|a l IH]; simpl.
  - split; [intros [] | intros (a & [] & _)].
  - destruct (f a) as [b0|] eqn:Ea; simpl; rewrite IH; split.
    + intros [<-|(a' & Ha' & Ef)]; [exists a | exists a']; auto.
    + intros (a' & [<-|Ha'] & Ef).
      * left. congruence.
      * right. exists a'. auto.
    + intros (a' & Ha' & Ef). exists a'. auto.
    + intros (a' & [<-|Ha'] & Ef); [congruence|]. exists a'. auto.
Qed.

Lemma filter_filter {A : Type} (p q : A -> bool) (l : list A) :
  filter q (filter p l) = filter (fun x => p x && q x) l.
Proof.
  induction l as [|a l IH]; simpl; [reflexivity|].
  destruct (p a); simpl; [destruct (q a)|]; rewrite IH; reflexivity.
Qed.

Lemma filter_idem {A : Type} (p : A -> bool) (l : list A) :
  filter p (filter p l) = filter p l.
Proof.
  rewrite filter_filter. apply filter_ext. intros a. destruct (p a); reflexivity.
Qed.

Lemma filter_none {A : Type} (p : A -> bool) (l : list A) :
  (forall a, In a l -> p a = false) -> filter p l = [].
Proof.
  induction l as [|a l IH]; simpl; intros H; [reflexivity|].
  rewrite (H a (or_introl eq_refl)). apply IH. intros b Hb. apply H. now right.
Qed.

(** ** Floats through their specification *)

(** *** Digits and shifts *)
Lemma digits2_size (p : positive) : digits2_pos p = Pos.size p.
Proof. induction p; simpl; congruence. Qed.

Lemma Zdigits2_log2 (z : Z) : 0 < z -> Zdigits2 z = Z.log2 z + 1.
Proof.
  destruct z as [|p|p]; try lia. intros _. simpl. rewrite digits2_size.
  destruct p; simpl; lia.
Qed.

Lemma Zdigits2_nonneg (z : Z) : 0 <= Zdigits2 z.
Proof. destruct z; simpl; lia. Qed.

Lemma digits_upper (z : Z) : 0 <= z -> z < 2 ^ Zdigits2 z.
Proof.
  intros H. destruct (Z.eq_dec z 0) as [->|N]; [reflexivity|].
  rewrite Zdigits2_log2 by lia.
  pose proof (Z.log2_spec z ltac:(lia)).
  replace (Z.log2 z + 1) with (Z.succ (Z.log2 z)) by lia. lia.
Qed.

Lemma digits_lower (z : Z) : 0 < z -> 2 ^ (Zdigits2 z - 1) <= z.
Proof.
  intros H. rewrite Zdigits2_log2 by lia.
  replace (Z.log2 z + 1 - 1) with (Z.log2 z) by lia.
  apply (Z.log2_spec z H).
Qed.

Lemma digits_le (z b : Z) : 0 <= z -> 0 <= b -> z < 2 ^ b -> Zdigits2 z <= b.
Proof.
  intros Hz Hb H. destruct (Z.eq_dec z 0) as [->|N]; [simpl; lia|].
  rewrite Zdigits2_log2 by lia.
  assert (Z.log2 z < b) by (apply Z.log2_lt_pow2; lia). lia.
Qed.

Lemma shr_1_m (mrs : shr_record) :
  0 <= shr_m mrs -> shr_m (shr_1 mrs) = shr_m mrs / 2.
Proof.
  destruct mrs as [m r s]. simpl. intros H.
  destruct m as [|p|p]; try lia; [reflexivity|].
  destruct p; simpl.
  - rewrite Pos2Z.inj_xI. apply (Z.div_unique _ 2 _ 1); lia.
  - rewrite Pos2Z.inj_xO. apply (Z.div_unique _ 2 _ 0); lia.
  - reflexivity.
Qed.

Lemma pow2_pos (n : Z) : 0 <= n -> 0 < 2 ^ n.
Proof. intros H. apply Z.pow_pos_nonneg; lia. Qed.

Lemma div_pow2_add (m a b : Z) :
  0 <= a -> 0 <= b -> m / 2 ^ a / 2 ^ b = m / 2 ^ (a + b).
Proof.
  intros Ha Hb. pose proof (pow2_pos a Ha). pose proof (pow2_pos b Hb).
  rewrite Z.div_div by lia. rewrite Z.pow_add_r by lia. reflexivity.
Qed.

Lemma div_pow2_nonneg (m a : Z) : 0 <= m -> 0 <= a -> 0 <= m / 2 ^ a.
Proof. intros. apply Z.div_pos; [lia | apply pow2_pos; lia]. Qed.

Lemma iter_shr_m (p : positive) (mrs : shr_record) :
  0 <= shr_m mrs ->
  shr_m (SpecFloat.iter_pos shr_1 p mrs) = shr_m mrs / 2 ^ Z.pos p.
Proof.
  revert mrs. induction p as [p IH|p IH|]; intros mrs H; simpl SpecFloat.iter_pos.
  - assert (H1 : 0 <= shr_m (shr_1 mrs))
      by (rewrite shr_1_m by lia; apply (div_pow2_nonneg _ 1); lia).
    assert (H2 : 0 <= shr_m (SpecFloat.iter_pos shr_1 p (shr_1 mrs)))
      by (rewrite IH by lia; apply div_pow2_nonneg; lia).
    rewrite IH, IH, shr_1_m by lia.
    change (shr_m mrs / 2) with (shr_m mrs / 2 ^ 1).
    rewrite !div_pow2_add by lia. f_equal. f_equal. lia.
  - assert (H2 : 0 <= shr_m (SpecFloat.iter_pos shr_1 p mrs))
      by (rewrite IH by lia; apply div_pow2_nonneg; lia).
    rewrite IH, IH by lia.
    rewrite !div_pow2_add by lia. f_equal. f_equal. lia.
  - rewrite shr_1_m by lia. reflexivity.
Qed.

Lemma fexp64_eq (e : Z) : fexp prec emax e = Z.max (e - 53) (-1074).
Proof. reflexivity. Qed.

Lemma shr_record_m (m : Z) (l : location) : shr_m (shr_record_of_loc m l) = m.
Proof. destruct l as [|[]]; reflexivity. Qed.

(** One alignment step of the rounding. *)
Lemma shr_fexp_spec (m e : Z) (l : location) :
  0 <= m ->
  exists mrs e',
    shr_fexp prec emax m e l = (mrs, e')
    /\ e' = Z.max e (fexp prec emax (Zdigits2 m + e))
    /\ shr_m mrs = m / 2 ^ (e' - e).
Proof.
  intros H. unfold shr_fexp, shr.
  destruct (fexp prec emax (Zdigits2 m + e) - e) as [|p|p] eqn:K.
  - eexists. eexists. split; [reflexivity|]. split; [lia|].
    rewrite shr_record_m, Z.sub_diag, Z.pow_0_r, Z.div_1_r. reflexivity.
  - eexists. eexists. split; [reflexivity|]. split; [lia|].
    rewrite iter_shr_m by (rewrite shr_record_m; lia).
    rewrite shr_record_m. f_equal. f_equal. lia.
  - eexists. eexists. split; [reflexivity|]. split; [lia|].
    rewrite shr_record_m, Z.sub_diag, Z.pow_0_r, Z.div_1_r. reflexivity.
Qed.

Lemma rne_bounds (m : Z) (l : location) :
  m <= round_nearest_even m l <= m + 1.
Proof.
  destruct l as [|[]]; simpl; try lia. destruct (Z.even m); lia.
Qed.

Lemma round_aux_below (sx : bool) (mx ex : Z) (lx : location) (B : Z) :
  0 <= mx -> ex <= 971 -> Zdigits2 mx + ex + 1 <= B -> -1073 <= B -> B <= 1024 ->
  below B (binary_round_aux prec emax sx mx ex lx).
Proof.
  intros Hm He HB HB1 HB2. unfold binary_round_aux.
  destruct (shr_fexp_spec mx ex lx Hm) as (mrs1 & e1 & -> & E1 & M1).
  set (m1 := round_nearest_even (shr_m mrs1) (loc_of_shr_record mrs1)).
  pose proof (rne_bounds (shr_m mrs1) (loc_of_shr_record mrs1)) as R. fold m1 in R.
  pose proof (Zdigits2_nonneg mx) as D0.
  pose proof (digits_upper mx Hm) as DU.
  rewrite fexp64_eq in E1.
  assert (K1 : 0 <= e1 - ex) by lia.
  assert (Hm' : 0 <= shr_m mrs1) by (rewrite M1; apply div_pow2_nonneg; lia).
  assert (Hm1 : 0 <= m1) by lia.
  (* the digits of the rounded mantissa *)
  assert (D1 : Zdigits2 m1 + e1 <= B).
  { destruct (Z_le_gt_dec (e1 - ex) (Zdigits2 mx)) as [L|G].
    - assert (shr_m mrs1 < 2 ^ (Zdigits2 mx - (e1 - ex))).
      { rewrite M1. apply Z.div_lt_upper_bound; [apply pow2_pos; lia|].
        rewrite <- Z.pow_add_r by lia.
        replace (e1 - ex + (Zdigits2 mx - (e1 - ex))) with (Zdigits2 mx) by lia.
        exact DU. }
      assert (Zdigits2 m1 <= Zdigits2 mx - (e1 - ex) + 1).
      { apply digits_le; try lia.
        rewrite Z.pow_add_r by lia. change (2 ^ 1) with 2. lia. }
      lia.
    - assert (shr_m mrs1 = 0).
      { rewrite M1. apply Z.div_small. split; [lia|].
        apply Z.lt_le_trans with (2 ^ Zdigits2 mx); [exact DU|].
        apply Z.pow_le_mono_r; lia. }
      assert (Zdigits2 m1 <= 1) by (apply digits_le; try lia; change (2 ^ 1) with 2; lia).
      lia. }
  destruct (shr_fexp_spec m1 e1 loc_Exact Hm1) as (mrs2 & e2 & -> & E2 & M2).
  rewrite fexp64_eq in E2.
  pose proof (Zdigits2_nonneg m1) as D10.
  pose proof (digits_upper m1 Hm1) as DU1.
  assert (Hm2 : 0 <= shr_m mrs2) by (rewrite M2; apply div_pow2_nonneg; lia).
  destruct (shr_m mrs2) as [|m|m] eqn:S2; [exact I| |lia].
  change (emax - prec) with 971.
  assert (Hle : (e2 <=? 971) = true) by (apply Z.leb_le; lia).
  rewrite Hle. unfold below.
  change (Z.pos (digits2_pos m)) with (Zdigits2 (Z.pos m)).
  destruct (Z_le_gt_dec (e2 - e1) (Zdigits2 m1)) as [L|G].
  - assert (Zdigits2 (Z.pos m) <= Zdigits2 m1 - (e2 - e1)); [|lia].
    apply digits_le; try lia.
    rewrite M2. apply Z.div_lt_upper_bound; [apply pow2_pos; lia|].
    rewrite <- Z.pow_add_r by lia.
    replace (e2 - e1 + (Zdigits2 m1 - (e2 - e1))) with (Zdigits2 m1) by lia.
    exact DU1.
  - exfalso. assert (Z.pos m = 0); [|lia].
    rewrite M2. apply Z.div_small. split; [lia|].
    apply Z.lt_le_trans with (2 ^ Zdigits2 m1); [exact DU1|].
    apply Z.pow_le_mono_r; lia.
Qed.

Lemma valid_finite (s : bool) (m : positive) (e : Z) :
  SpecFloat.valid_binary prec emax (S754_finite s m e) = true ->
  Z.pos (digits2_pos m) <= 53 /\ -1074 <= e <= 971.
Proof.
  unfold SpecFloat.valid_binary, bounded, canonical_mantissa. rewrite fexp64_eq.
  change (emax - prec) with 971.
  intros H. apply andb_true_iff in H. destruct H as [H1 H2].
  apply Z.eqb_eq in H1. apply Z.leb_le in H2. lia.
Qed.

Lemma below_weaken (B B' : Z) (x : spec_float) : B <= B' -> below B x -> below B' x.
Proof. destruct x; cbv [below]; auto. lia. Qed.

Lemma digits_mul (a b : positive) :
  Zdigits2 (Z.pos (a * b)) <= Z.pos (digits2_pos a) + Z.pos (digits2_pos b).
Proof.
  apply digits_le; try lia.
  pose proof (digits_upper (Z.pos a) ltac:(lia)) as Ha.
  pose proof (digits_upper (Z.pos b) ltac:(lia)) as Hb.
  simpl Zdigits2 in Ha, Hb.
  rewrite Z.pow_add_r by lia. rewrite Pos2Z.inj_mul. nia.
Qed.

(** A product whose factors are zeros or finite, the second of a
    non-positive exponent: no overflow while the magnitudes add up to at
    most 1023. *)
Lemma mul_below (x y : spec_float) (Bx By : Z) :
  SpecFloat.valid_binary prec emax x = true ->
  below Bx x -> below By y ->
  match y with S754_finite _ _ e => e <= 0 | _ => True end ->
  Bx + By + 1 <= 1024 ->
  below (Z.max (Bx + By + 1) (-1073)) (SFmul prec emax x y).
Proof.
  intros V Hx Hy Ey HB.
  destruct x as [sx|sx| |sx mx ex], y as [sy|sy| |sy my ey];
    cbv [below SFmul] in *; try exact I; try contradiction.
  destruct (valid_finite _ _ _ V) as [_ Ex].
  apply round_aux_below; try lia.
  pose proof (digits_mul mx my). lia.
Qed.

(** A quotient of a zero or finite number by a finite one whose magnitude
    exceeds the dividend's by at least [- c]. *)
Lemma div_below (x : spec_float) (sy : bool) (my : positive) (ey c : Z) :
  below (Z.pos (digits2_pos my) + ey + c) x ->
  c + 2 <= 1024 ->
  below (Z.max (c + 2) (-1073)) (SFdiv prec emax x (S754_finite sy my ey)).
Proof.
  intros Hx Hc.
  destruct x as [sx|sx| |sx mx ex]; cbv [below SFdiv] in *;
    try exact I; try contradiction.
  unfold SFdiv_core_binary.
  set (d1 := Zdigits2 (Z.pos mx)). set (d2 := Zdigits2 (Z.pos my)).
  change (Z.pos (digits2_pos mx)) with d1 in Hx.
  change (Z.pos (digits2_pos my)) with d2 in Hx.
  set (e' := Z.min (fexp prec emax (d1 + ex - (d2 + ey))) (ex - ey)).
  set (s := ex - ey - e').
  set (m' := match s with Z.pos _ => Z.shiftl (Z.pos mx) s | 0 => Z.pos mx | Z.neg _ => 0 end).
  assert (Hs : 0 <= s) by (unfold s, e'; lia).
  assert (Hm' : m' = Z.pos mx * 2 ^ s).
  { unfold m'. destruct s as [|p|p] eqn:Es; try lia.
    rewrite Z.shiftl_mul_pow2 by lia. reflexivity. }
  pose proof (digits_upper (Z.pos mx) ltac:(lia)) as U1. fold d1 in U1.
  pose proof (digits_lower (Z.pos my) ltac:(lia)) as L2. fold d2 in L2.
  assert (D1 : 1 <= d1) by (unfold d1; simpl; lia).
  assert (D2 : 1 <= d2) by (unfold d2; simpl; lia).
  pose proof (pow2_pos s Hs) as Ps.
  assert (Q0 : 0 <= m' / Z.pos my) by (apply Z.div_pos; nia).
  destruct (Z.div_eucl m' (Z.pos my)) as [q r] eqn:DE.
  assert (Eq : q = m' / Z.pos my) by (unfold Z.div; rewrite DE; reflexivity).
  assert (He' : e' = Z.min (Z.max (d1 + ex - (d2 + ey) - 53) (-1074)) (ex - ey))
    by reflexivity.
  apply round_aux_below; try lia.
  - (* digits of the quotient *)
    assert (Zdigits2 q <= Z.max (d1 + s - d2 + 1) 0).
    { apply digits_le; try lia.
      destruct (Z_le_gt_dec 0 (d1 + s - d2 + 1)) as [P|N].
      - rewrite Z.max_l by lia. rewrite Eq.
        apply Z.div_lt_upper_bound; [lia|].
        apply Z.lt_le_trans with (2 ^ (d1 + s)).
        + rewrite Hm', Z.pow_add_r by lia. nia.
        + assert (E2 : 2 ^ (d1 + s) = 2 ^ (d2 - 1) * 2 ^ (d1 + s - d2 + 1))
            by (rewrite <- Z.pow_add_r by lia; f_equal; lia).
          rewrite E2. pose proof (pow2_pos (d1 + s - d2 + 1) P).
          apply Z.mul_le_mono_nonneg_r; lia.
      - rewrite Z.max_r by lia. change (2 ^ 0) with 1.
        assert (q = 0); [|lia]. rewrite Eq. apply Z.div_small. split; [nia|].
        apply Z.lt_le_trans with (2 ^ (d1 + s)).
        + rewrite Hm', Z.pow_add_r by lia. nia.
        + apply Z.le_trans with (2 ^ (d2 - 1)); [|exact L2].
          apply Z.pow_le_mono_r; lia. }
    unfold s in *. lia.
Qed.

Lemma SFcompare_refl (x : spec_float) :
  x <> S754_nan -> SFcompare x x = Some Eq.
Proof.
  destruct x as [s|s| |s m e]; simpl; intros N; try reflexivity.
  - destruct s; reflexivity.
  - contradiction.
  - rewrite Z.compare_refl, Pos.compare_cont_refl. destruct s; reflexivity.
Qed.

Lemma SFcompare_antisym (x y : spec_float) :
  SFcompare y x = option_map CompOpp (SFcompare x y).
Proof.
  destruct x as [s1|s1| |s1 m1 e1], y as [s2|s2| |s2 m2 e2]; simpl;
    try reflexivity;
    try (destruct s1; reflexivity);
    try (destruct s2; reflexivity);
    try (destruct s1, s2; reflexivity).
  rewrite (Z.compare_antisym e1 e2), (ZC4 m2 m1).
  destruct s1, s2; try reflexivity;
    destruct (e1 ?= e2); simpl; rewrite ?CompOpp_involutive; reflexivity.
Qed.

Lemma is_nan_spec (x : float) :
  is_nan x = true <-> Prim2SF x = S754_nan.
Proof.
  unfold is_nan. rewrite FloatAxioms.eqb_spec. unfold SFeqb. split.
  - intros H. destruct (Prim2SF x) eqn:E; try reflexivity;
      rewrite SFcompare_refl in H by discriminate; discriminate.
  - intros ->. reflexivity.
Qed.

Lemma is_infinity_spec (x : float) :
  is_infinity x = true <-> exists s, Prim2SF x = S754_infinity s.
Proof.
  unfold is_infinity. rewrite FloatAxioms.eqb_spec, abs_spec.
  change (Prim2SF infinity) with (S754_infinity false).
  destruct (Prim2SF x) as [s|s| |s m e]; simpl; split;
    try discriminate; try (intros [s' H]; discriminate).
  - intros _. exists s. reflexivity.
  - reflexivity.
Qed.

(** A float is finite when it is neither NaN nor an infinity. *)
Lemma is_finite_below (x : float) :
  is_finite x = true <-> exists B, below B (Prim2SF x).
Proof.
  unfold is_finite. rewrite negb_true_iff, orb_false_iff. split.
  - intros [N Hi]. destruct (Prim2SF x) as [s|s| |s m e] eqn:E.
    + exists 0. exact I.
    + assert (is_infinity x = true) by (apply is_infinity_spec; eauto). congruence.
    + assert (is_nan x = true) by (apply is_nan_spec; assumption). congruence.
    + exists (Z.pos (digits2_pos m) + e). simpl. lia.
  - intros [B H]. split.
    + destruct (is_nan x) eqn:N; [|reflexivity].
      apply is_nan_spec in N. rewrite N in H. destruct H.
    + destruct (is_infinity x) eqn:Hi; [|reflexivity].
      apply is_infinity_spec in Hi. destruct Hi as [s Hi]. rewrite Hi in H. destruct H.
Qed.

Lemma margin_finite (s rate : float) :
  margin_shape rate ->
  is_finite s = true ->
  is_finite (if negb (s =? 0)%float then (s * rate / s * 100)%float else 0%float) = true.
Proof.
  intros (mr & Er & Dr) Fs.
  pose proof (Prim2SF_valid s) as Vs.
  apply is_finite_below in Fs. destruct Fs as [Bs Hs].
  rewrite FloatAxioms.eqb_spec. change (Prim2SF 0) with (S754_zero false).
  destruct (Prim2SF s) as [ss|ss| |ss ms es] eqn:Es; try contradiction.
  - reflexivity.
  - unfold SFeqb. replace (SFcompare (S754_finite ss ms es) (S754_zero false))
      with (Some (if ss then Lt else Gt)) by reflexivity.
    replace (negb match (if ss then Lt else Gt) with Eq => true | _ => false end)
      with true by (destruct ss; reflexivity).
    apply is_finite_below.
    set (Ms := Z.pos (digits2_pos ms) + es).
    destruct (valid_finite _ _ _ Vs) as [Dm Ee].
    assert (Hp : below Ms (Prim2SF (s * rate))).
    { rewrite mul_spec, Es, Er.
      apply (below_weaken (Z.max (Ms + (-2) + 1) (-1073))).
      - unfold Ms. lia.
      - apply mul_below; try assumption.
        + unfold below, Ms. lia.
        + unfold below. lia.
        + lia.
        + unfold Ms. lia. }
    assert (Hq : below 2 (Prim2SF (s * rate / s))).
    { rewrite div_spec, Es.
      apply (div_below _ ss ms es 0).
      - replace (Z.pos (digits2_pos ms) + es + 0) with Ms by (unfold Ms; lia). exact Hp.
      - lia. }
    exists 10. rewrite mul_spec.
    change (Prim2SF 100) with (S754_finite false 7036874417766400 (-46)).
    apply (mul_below _ _ 2 7); try assumption.
    + apply Prim2SF_valid.
    + simpl. lia.
    + lia.
    + lia.
Qed.

Lemma rates_shape : margin_shape 0.22 /\ margin_shape 0.14 /\ margin_shape 0.18.
Proof. repeat split; eexists; (split; [vm_compute; reflexivity | reflexivity]). Qed.

(** *** The float of an integer *)

Lemma digits_exact (z k : Z) : 0 < k -> 2 ^ (k - 1) <= z < 2 ^ k -> Zdigits2 z = k.
Proof.
  intros Hk H. assert (0 < z) by (pose proof (pow2_pos (k - 1)); lia).
  rewrite Zdigits2_log2 by lia.
  rewrite (Z.log2_unique z (k - 1)); try lia.
  replace (Z.succ (k - 1)) with k by lia. exact H.
Qed.

Lemma round_aux_normal (sx : bool) (mx ex : Z) (lx : location) :
  0 < mx -> 53 <= Zdigits2 mx -> -1074 <= Zdigits2 mx + ex - 53 ->
  rounded sx (Zdigits2 mx + ex - 53) (binary_round_aux prec emax sx mx ex lx).
Proof.
  intros Hm Hd Hn. unfold binary_round_aux.
  set (d := Zdigits2 mx) in *.
  destruct (shr_fexp_spec mx ex lx ltac:(lia)) as (mrs1 & e1 & -> & E1 & M1).
  rewrite fexp64_eq in E1. fold d in E1.
  assert (Ee : e1 = d + ex - 53) by lia. clear E1.
  replace (e1 - ex) with (d - 53) in M1 by lia.
  pose proof (digits_upper mx ltac:(lia)) as U. fold d in U.
  pose proof (digits_lower mx Hm) as L. fold d in L.
  pose proof (pow2_pos (d - 53) ltac:(lia)) as P.
  assert (L1 : 2 ^ 52 <= shr_m mrs1).
  { rewrite M1. apply Z.div_le_lower_bound; [lia|].
    rewrite <- Z.pow_add_r by lia. replace (d - 53 + 52) with (d - 1) by lia.
    exact L. }
  assert (U1 : shr_m mrs1 < 2 ^ 53).
  { rewrite M1. apply Z.div_lt_upper_bound; [lia|].
    rewrite <- Z.pow_add_r by lia. replace (d - 53 + 53) with d by lia.
    exact U. }
  pose proof (rne_bounds (shr_m mrs1) (loc_of_shr_record mrs1)) as R.
  set (m1 := round_nearest_even (shr_m mrs1) (loc_of_shr_record mrs1)) in *.
  destruct (shr_fexp_spec m1 e1 loc_Exact ltac:(lia)) as (mrs2 & e2 & -> & E2 & M2).
  rewrite fexp64_eq in E2.
  destruct (Z.eq_dec m1 (2 ^ 53)) as [T|T].
  - assert (D1 : Zdigits2 m1 = 54) by (rewrite T; reflexivity).
    rewrite D1 in E2. assert (Ee2 : e2 = e1 + 1) by lia.
    replace (e2 - e1) with 1 in M2 by lia. rewrite T in M2.
    change (2 ^ 53 / 2 ^ 1) with (Z.pos (2 ^ 52)) in M2. rewrite M2.
    exists (2 ^ 52)%positive, e2. change (emax - prec) with 971.
    split; [reflexivity|]. split; [reflexivity|]. lia.
  - assert (D1 : Zdigits2 m1 = 53) by (apply digits_exact; lia).
    rewrite D1 in E2. assert (Ee2 : e2 = e1) by lia.
    replace (e2 - e1) with 0 in M2 by lia.
    rewrite Z.pow_0_r, Z.div_1_r in M2. rewrite M2.
    destruct m1 as [|m|m] eqn:Em; try lia.
    exists m, e2. change (emax - prec) with 971.
    split; [reflexivity|]. split; [exact D1|]. lia.
Qed.

Lemma round_int (sx : bool) (p : positive) :
  rounded sx (Z.pos (digits2_pos p) - 53) (binary_round prec emax sx p 0).
Proof.
  unfold binary_round. rewrite fexp64_eq.
  set (d := Z.pos (digits2_pos p)).
  assert (D : Zdigits2 (Z.pos p) = d) by reflexivity.
  replace (Z.max (d + 0 - 53) (-1074)) with (d - 53) by lia.
  unfold shl_align. destruct (d - 53 - 0) as [|k|k] eqn:K.
  - replace (d - 53) with (Zdigits2 (Z.pos p) + 0 - 53) by lia.
    apply round_aux_normal; lia.
  - replace (d - 53) with (Zdigits2 (Z.pos p) + 0 - 53) by lia.
    apply round_aux_normal; lia.
  - change (PosDef.Pos.iter xO p k) with (shift_pos k p).
    assert (S : Z.pos (shift_pos k p) = Z.pos p * 2 ^ Z.pos k).
    { rewrite shift_pos_correct. rewrite Z.mul_comm. reflexivity. }
    assert (DS : Zdigits2 (Z.pos (shift_pos k p)) = 53).
    { rewrite Zdigits2_log2 by lia. rewrite S, Z.log2_mul_pow2 by lia.
      rewrite Zdigits2_log2 in D by lia. lia. }
    replace (d - 53) with (Zdigits2 (Z.pos (shift_pos k p)) + (d - 53) - 53) at 1 by lia.
    apply round_aux_normal; lia.
Qed.

Lemma rounded_valid (sx : bool) (lo : Z) (x : spec_float) :
  -1074 <= lo -> rounded sx lo x -> SpecFloat.valid_binary prec emax x = true.
Proof.
  intros Hlo (m & e & -> & D & He). destruct (e <=? 971) eqn:B; [|reflexivity].
  unfold SpecFloat.valid_binary, bounded, canonical_mantissa.
  rewrite fexp64_eq, D. change (emax - prec) with 971. rewrite B.
  apply andb_true_iff. split; [apply Z.eqb_eq; lia|reflexivity].
Qed.

(** The float of an integer that is not 0: finite with a 53-digit mantissa,
    or an infinity, of the sign of the integer. *)
Lemma of_Z_rounded (n : Z) :
  n <> 0 ->
  rounded (n <? 0) (Zdigits2 (Z.abs n) - 53) (Prim2SF (F64.of_Z n)).
Proof.
  intros N. unfold F64.of_Z.
  assert (R : rounded (n <? 0) (Zdigits2 (Z.abs n) - 53)
                (binary_normalize prec emax n 0 false)).
  { destruct n as [|p|p]; [contradiction| |]; apply round_int. }
  rewrite Prim2SF_SF2Prim; [exact R|].
  pose proof (Zdigits2_nonneg (Z.abs n)).
  apply (rounded_valid (n <? 0) (Zdigits2 (Z.abs n) - 53)); [lia | exact R].
Qed.

Lemma of_Z_not_nan (n : Z) : is_nan (F64.of_Z n) = false.
Proof.
  destruct (Z.eq_dec n 0) as [->|N]; [reflexivity|].
  destruct (is_nan (F64.of_Z n)) eqn:E; [|reflexivity].
  apply is_nan_spec in E.
  destruct (of_Z_rounded n N) as (m & e & R & _). rewrite E in R.
  destruct (e <=? 971); discriminate.
Qed.

Lemma of_Z_eqb_zero (n : Z) : (F64.of_Z n =? 0)%float = (n =? 0).
Proof.
  destruct (Z.eq_dec n 0) as [->|N]; [reflexivity|].
  apply Z.eqb_neq in N as N'. rewrite N'.
  rewrite FloatAxioms.eqb_spec.
  destruct (of_Z_rounded n N) as (m & e & -> & _).
  change (Prim2SF 0) with (S754_zero false).
  destruct (e <=? 971), (n <? 0); reflexivity.
Qed.

Lemma of_Z_finite (n : Z) : Z.abs n < 2 ^ 1023 -> is_finite (F64.of_Z n) = true.
Proof.
  intros B. destruct (Z.eq_dec n 0) as [->|N]; [reflexivity|].
  apply is_finite_below.
  destruct (of_Z_rounded n N) as (m & e & -> & D & He).
  assert (Zdigits2 (Z.abs n) <= 1023) by (apply digits_le; [apply Z.abs_nonneg | discriminate | exact B]).
  clear B.
  assert (Hle : (e <=? 971) = true)
    by (apply Z.leb_le; revert He H; generalize (Zdigits2 (Z.abs n)); lia).
  rewrite Hle. apply Z.leb_le in Hle. exists 1024. unfold below. rewrite D. clear He H. lia.
Qed.

(** ** Numbers of a column *)

(** A float that is not finite is NaN or one of the two infinities. *)
Lemma not_finite_values (x : float) :
  is_finite x = false -> x = nan \/ x = infinity \/ x = neg_infinity.
Proof.
  unfold is_finite. rewrite negb_false_iff, orb_true_iff. intros [N|Hi].
  - left. apply is_nan_spec in N.
    rewrite <- (SF2Prim_Prim2SF x), N. reflexivity.
  - right. apply is_infinity_spec in Hi. destruct Hi as [sx Hi].
    rewrite <- (SF2Prim_Prim2SF x), Hi. destruct sx; auto.
Qed.

(** [!= 0] on an integer and on its float64 agree. *)
Lemma nonzero_float (v : number) : nonzero v = negb (v =? 0)%float.
Proof.
  destruct v as [n|n|x]; simpl; rewrite ?of_Z_eqb_zero; reflexivity.
Qed.

(** The float64 of an element after [fillna(0)]. *)
Lemma fillna0_float (v : number) :
  to_float (fillna0 v) = if is_nan v then 0%float else to_float v.
Proof.
  destruct v as [n|n|x]; simpl; rewrite ?of_Z_not_nan; reflexivity.
Qed.

Lemma wrap_int64_range (z : Z) :
  F64.int64_min <= wrap_int64 z <= F64.int64_max.
Proof.
  unfold wrap_int64, F64.int64_min, F64.int64_max.
  pose proof (Z.mod_pos_bound (z + 2 ^ 63) (2 ^ 64) eq_refl). lia.
Qed.

Lemma wrap_int64_congruent (z : Z) : (wrap_int64 z - z) mod 2 ^ 64 = 0.
Proof.
  unfold wrap_int64.
  replace ((z + 2 ^ 63) mod 2 ^ 64 - 2 ^ 63 - z)
    with (- ((z + 2 ^ 63) / 2 ^ 64) * 2 ^ 64)
    by (pose proof (Z.div_mod (z + 2 ^ 63) (2 ^ 64)); lia).
  apply Z.mod_mul. discriminate.
Qed.

Lemma wrap_int64_fits (z : Z) :
  F64.int64_min <= z <= F64.int64_max -> wrap_int64 z = z.
Proof.
  unfold wrap_int64, F64.int64_min, F64.int64_max. intros H.
  rewrite Z.mod_small; lia.
Qed.

Lemma wrap_uint64_range (z : Z) : 0 <= wrap_uint64 z <= uint64_max.
Proof.
  unfold wrap_uint64, uint64_max.
  pose proof (Z.mod_pos_bound z (2 ^ 64) eq_refl). lia.
Qed.

Lemma wrap_uint64_congruent (z : Z) : (wrap_uint64 z - z) mod 2 ^ 64 = 0.
Proof.
  unfold wrap_uint64.
  replace (z mod 2 ^ 64 - z) with (- (z / 2 ^ 64) * 2 ^ 64)
    by (pose proof (Z.div_mod z (2 ^ 64)); lia).
  apply Z.mod_mul. discriminate.
Qed.

Lemma wrap_uint64_fits (z : Z) : 0 <= z <= uint64_max -> wrap_uint64 z = z.
Proof.
  unfold wrap_uint64, uint64_max. intros H. rewrite Z.mod_small; lia.
Qed.

(** A product of two elements: of two integers of one kind, the integer of
    that kind congruent to their product; of anything else, the float64
    product, a null counting as 0. *)
Lemma product_spec (q p : number) :
  let sales := product (fillna0 q) (fillna0 p) in
  match q, p with
  | Int64 a, Int64 b =>
      exists s,
        sales = Int64 s
        /\ F64.int64_min <= s <= F64.int64_max
        /\ (s - a * b) mod 2 ^ 64 = 0
        /\ (F64.int64_min <= a * b <= F64.int64_max -> s = a * b)
  | UInt64 a, UInt64 b =>
      exists s,
        sales = UInt64 s
        /\ 0 <= s <= uint64_max
        /\ (s - a * b) mod 2 ^ 64 = 0
        /\ (0 <= a * b <= uint64_max -> s = a * b)
  | _, _ =>
      sales = Float64 ((if is_nan q then 0 else q) * (if is_nan p then 0 else p))
  end.
Proof.
  assert (F : forall a b : number,
             Float64 (fillna0 a * fillna0 b)
             = Float64 ((if is_nan a then 0 else a) * (if is_nan b then 0 else b)))
    by (intros a b; rewrite !fillna0_float; reflexivity).
  destruct q as [a|a|x], p as [b|b|y]; cbv zeta;
    try exact (F _ _).
  - exists (wrap_int64 (a * b)). split; [reflexivity|].
    split; [apply wrap_int64_range|].
    split; [apply wrap_int64_congruent | apply wrap_int64_fits].
  - exists (wrap_uint64 (a * b)). split; [reflexivity|].
    split; [apply wrap_uint64_range|].
    split; [apply wrap_uint64_congruent | apply wrap_uint64_fits].
Qed.

(** An integer product is within reach of float64. *)
Lemma product_finite (a b : number) :
  match product a b with
  | Float64 _ => True
  | s => is_finite s = true
  end.
Proof.
  destruct a as [m|m|x], b as [n|n|y]; simpl; try exact I;
    apply of_Z_finite.
  - pose proof (wrap_int64_range (m * n)) as R.
    unfold F64.int64_min, F64.int64_max in R.
    apply Z.lt_le_trans with (2 ^ 64); [lia|].
    apply Z.pow_le_mono_r; lia.
  - pose proof (wrap_uint64_range (m * n)) as R. unfold uint64_max in R.
    apply Z.lt_le_trans with (2 ^ 64); [lia|].
    apply Z.pow_le_mono_r; lia.
Qed.

(** The dtype of a column that holds a float is float64, and an integer
    column holds only integers between the least int64 and the greatest
    uint64. *)
Lemma wholes_In (column : list scalar) (ns : list Z) (n : Z) :
  wholes column = Some ns -> In (Whole n) column -> In n ns.
Proof.
  revert ns. induction column as [|[m|x] l IH]; simpl; intros ns E Hin;
    [destruct Hin| |discriminate].
  destruct (wholes l) as [ms|]; [|discriminate].
  injection E as <-. destruct Hin as [H|H].
  - injection H as ->. left. reflexivity.
  - right. apply IH; [reflexivity|assumption].
Qed.

Lemma wholes_real (column : list scalar) (x : float) :
  In (Real x) column -> wholes column = None.
Proof.
  induction column as [|[m|y] l IH]; simpl; intros Hin;
    [destruct Hin| |reflexivity].
  destruct Hin as [H|H]; [discriminate|]. rewrite (IH H). reflexivity.
Qed.

Lemma dtype_of_real (column : list scalar) (x : float) :
  In (Real x) column -> dtype_of column = float64.
Proof.
  intros H. unfold dtype_of. rewrite (wholes_real column x H). reflexivity.
Qed.

Lemma dtype_of_range (column : list scalar) (n : Z) :
  dtype_of column <> float64 -> In (Whole n) column ->
  F64.int64_min <= n <= uint64_max.
Proof.
  unfold dtype_of. intros D Hin.
  destruct (wholes column) as [ns|] eqn:W; [|contradiction].
  apply (wholes_In _ _ _ W) in Hin.
  destruct (existsb _ ns) eqn:X; [contradiction|].
  rewrite <- not_true_iff_false, existsb_exists in X.
  destruct (Z_lt_dec n F64.int64_min) as [L|L].
  - exfalso. apply X. exists n. split; [assumption|].
    apply orb_true_iff. left. apply Z.ltb_lt. exact L.
  - destruct (Z_lt_dec uint64_max n) as [U|U]; [|lia].
    exfalso. apply X. exists n. split; [assumption|].
    apply orb_true_iff. right. apply Z.ltb_lt. exact U.
Qed.

(** ** Loader *)

Section LoaderFacts.

Variable coerce_numeric : cell -> scalar.
Variable coerce_datetime : cell -> option Z.

Let load := load_and_prepare coerce_numeric coerce_datetime.

(** [prepare] of a line of the sheet [df]. *)
Let line (df : Sheet) : Raw.row -> Z -> Z -> Row :=
  prepare coerce_numeric (map strip (columns df))
    (quantity_dtype coerce_numeric df) (unitprice_dtype coerce_numeric df).

(** The customer id that line 59 makes of a line of the sheet [df]. *)
Let id_of (df : Sheet) (raw : Raw.row) : option Z :=
  customer_id (customer_dtype coerce_numeric df)
    (customer coerce_numeric (map strip (columns df)) raw).

(** Every line of the loaded table is [prepare] of a line of the sheet
    that has a date and a customer id that converts. *)
Lemma loaded_row (df : Sheet) (t : Table) (r : Row) :
  load df = Some t -> In r t ->
  exists raw d cid,
    In raw (rows df)
    /\ to_datetime coerce_datetime (Raw.InvoiceDate raw) = Some d
    /\ id_of df raw = Some cid
    /\ r = line df raw d cid.
Proof.
  unfold load, load_and_prepare, id_of, line. intros E Hr.
  destruct (has _ "Quantity" && has _ "UnitPrice" && has _ "InvoiceDate"
            && unambiguous _);
    [|discriminate].
  destruct (mapM_In _ _ _ _ E Hr) as ([raw d] & Hin & Ef).
  apply choose_In in Hin. destruct Hin as (raw' & Hraw & Ed).
  unfold dated in Ed.
  destruct (to_datetime coerce_datetime (Raw.InvoiceDate raw')) as [d'|] eqn:Et;
    simpl in Ed; [|discriminate].
  injection Ed as -> ->.
  unfold finalize in Ef. simpl in Ef.
  destruct (customer_id _ _) as [cid|] eqn:Ec; simpl in Ef; [|discriminate].
  injection Ef as <-. exists raw, d, cid. auto.
Qed.

(** A line of the sheet with a date is in the loaded table, as [prepare]
    of it. *)
Lemma row_loaded (df : Sheet) (t : Table) (raw : Raw.row) (d : Z) :
  load df = Some t -> In raw (rows df) ->
  to_datetime coerce_datetime (Raw.InvoiceDate raw) = Some d ->
  exists cid, id_of df raw = Some cid /\ In (line df raw d cid) t.
Proof.
  unfold load, load_and_prepare, id_of, line. intros E Hraw Ed.
  destruct (has _ "Quantity" && has _ "UnitPrice" && has _ "InvoiceDate"
            && unambiguous _);
    [|discriminate].
  assert (Hin : In (raw, d) (choose (dated coerce_datetime) (rows df))).
  { apply choose_In. exists raw. split; [assumption|].
    unfold dated. rewrite Ed. reflexivity. }
  destruct (mapM_image _ _ _ _ E Hin) as (b & Ef & Hb).
  unfold finalize in Ef. simpl in Ef.
  destruct (customer_id _ _) as [cid|] eqn:Ec; simpl in Ef; [|discriminate].
  injection Ef as <-. exists cid. auto.
Qed.

End LoaderFacts.

(** The margin read from [margin_map] with its default is the rate of the
    specification. *)
Lemma margin_map_rate (segment : option label) :
  F64.fillna 0.18 (map_dict margin_map segment) = margin_rate segment.
Proof.
  destruct segment as [[s|n]|]; try reflexivity.
  unfold map_dict, margin_map, lookup, margin_rate.
  destruct (label_eq_dec (Str s) (Str "Retail")) as [E|N].
  - injection E as ->. reflexivity.
  - destruct (String.eqb_spec s "Retail") as [->|_]; [contradiction|].
    destruct (label_eq_dec (Str s) (Str "B2B")) as [E|N'].
    + injection E as ->. reflexivity.
    + destruct (String.eqb_spec s "B2B") as [->|_]; [contradiction|reflexivity].
Qed.

Lemma margin_rate_values (segment : option label) :
  margin_rate segment = 0.22%float
  \/ margin_rate segment = 0.14%float
  \/ margin_rate segment = 0.18%float.
Proof.
  unfold margin_rate. destruct segment as [[s|n]|]; auto.
  destruct (s =? "Retail")%string; auto.
  destruct (s =? "B2B")%string; auto.
Qed.

(** The Profit that [prepare] computes, in the words of the specification. *)
Lemma prepare_profit (coerce_numeric : cell -> scalar) (cols : list string)
    (dq dp : dtype) (raw : Raw.row) (d cid : Z) :
  let r := prepare coerce_numeric cols dq dp raw d cid in
  Profit r = (Sales r * margin_rate (Segment r))%float.
Proof.
  unfold prepare; simpl. rewrite margin_map_rate. reflexivity.
Qed.

(** The Profit Margin % that [prepare] computes, from Sales alone. *)
Lemma prepare_profit_margin (coerce_numeric : cell -> scalar)
    (cols : list string) (dq dp : dtype) (raw : Raw.row) (d cid : Z) :
  let r := prepare coerce_numeric cols dq dp raw d cid in
  Profit_Margin r
  = (if negb (Sales r =? 0)
     then Sales r * margin_rate (Segment r) / Sales r * 100
     else 0)%float.
Proof.
  unfold prepare, profit_margin_of; simpl.
  rewrite margin_map_rate, nonzero_float. reflexivity.
Qed.

Lemma margin_rate_shape (segment : option label) :
  margin_shape (margin_rate segment).
Proof.
  destruct rates_shape as (S22 & S14 & S18).
  destruct (margin_rate_values segment) as [-> | [-> | ->]]; assumption.
Qed.

(** [apply_filters] keeps, in order, the lines that meet all the criteria. *)
Lemma apply_filters_matches (df : Table) (filters : Filters) :
  apply_filters df filters = filter (matches filters) df.
Proof.
  unfold apply_filters, matches.
  destruct (date_range filters) as [start end']. simpl.
  destruct (year filters) as [y|].
  - rewrite !filter_filter. apply filter_ext. intros r.
    rewrite !andb_assoc. reflexivity.
  - rewrite filter_filter. reflexivity.
Qed.

Lemma sample_load :
  load_and_prepare no_number no_date sample_sheet = Some sample_table.
Proof. vm_compute. reflexivity. Qed.

Lemma overflow_load :
  load_and_prepare no_number no_date overflow_sheet = Some overflow_table.
Proof. vm_compute. reflexivity. Qed.

Lemma wholesale_load :
  load_and_prepare no_number no_date wholesale_sheet = Some wholesale_table.
Proof. vm_compute. reflexivity. Qed.

Section LoaderClaims.

Variable coerce_numeric : cell -> scalar.
Variable coerce_datetime : cell -> option Z.

Let load := load_and_prepare coerce_numeric coerce_datetime.

(** Replace a line of a loaded table by [prepare] of the line of the sheet
    it comes from. *)
Ltac from_sheet E Hr :=
  let raw := fresh "raw" in
  let d := fresh "d" in
  let cid := fresh "cid" in
  destruct (loaded_row _ _ _ _ _ E Hr) as (raw & d & cid & _ & _ & _ & ->).

(** C4: in every line of the loaded table, Profit is Sales times the
    margin rate of the line's Segment: 0.22 for "Retail", 0.14 for "B2B"
    and 0.18 for anything else, a missing Segment included. *)
Theorem profit_is_sales_times_margin_rate (df : Sheet) (t : Table) (r : Row) :
  load df = Some t -> In r t ->
  Profit r = (Sales r * margin_rate (Segment r))%float.
Proof.
  intros E Hr. from_sheet E Hr. apply prepare_profit.
Qed.

(** C5, amended: in every line of the loaded table, Sales is Quantity times
    UnitPrice in the arithmetic of the two columns.  When both are int64
    columns, Sales is the int64 that is congruent to the product modulo
    2^64: the product itself when it fits int64, and another number when it
    does not.  The same holds of two uint64 columns.  In every other case
    Sales is the float64 product of the two float64 values, a null Quantity
    or UnitPrice counting as 0. *)
Theorem sales_is_product_of_columns (df : Sheet) (t : Table) (r : Row) :
  load df = Some t -> In r t ->
  match Quantity r, UnitPrice r with
  | Int64 q, Int64 p =>
      exists s,
        Sales r = Int64 s
        /\ F64.int64_min <= s <= F64.int64_max
        /\ (s - q * p) mod 2 ^ 64 = 0
        /\ (F64.int64_min <= q * p <= F64.int64_max -> s = q * p)
  | UInt64 q, UInt64 p =>
      exists s,
        Sales r = UInt64 s
        /\ 0 <= s <= uint64_max
        /\ (s - q * p) mod 2 ^ 64 = 0
        /\ (0 <= q * p <= uint64_max -> s = q * p)
  | _, _ =>
      Sales r
      = Float64 ((if is_nan (Quantity r) then 0 else Quantity r)
                 * (if is_nan (UnitPrice r) then 0 else UnitPrice r))
  end.
Proof.
  intros E Hr. from_sheet E Hr.
  set (r := prepare coerce_numeric _ _ _ raw d cid).
  exact (product_spec (Quantity r) (UnitPrice r)).
Qed.

(** C6, amended: in every line of the loaded table, Profit Margin % is 0
    when Sales is 0 and Profit / Sales * 100 otherwise.  When Sales is
    finite, so is Profit Margin %: the computation gives no infinity and no
    NaN; and Sales is finite whenever it is an integer.  When Sales is not
    finite, as after an overflow of Quantity times UnitPrice, Profit
    Margin % is NaN. *)
Theorem profit_margin_finite_with_sales (df : Sheet) (t : Table) (r : Row) :
  load df = Some t -> In r t ->
  ((Sales r =? 0)%float = true -> Profit_Margin r = 0%float)
  /\ ((Sales r =? 0)%float = false ->
      Profit_Margin r = (Profit r / Sales r * 100)%float)
  /\ (is_finite (Sales r) = true -> is_finite (Profit_Margin r) = true)
  /\ (is_finite (Sales r) = false -> is_nan (Profit_Margin r) = true)
  /\ match Sales r with
     | Float64 _ => True
     | _ => is_finite (Profit_Margin r) = true
     end.
Proof.
  intros E Hr. from_sheet E Hr.
  set (r := prepare coerce_numeric _ _ _ raw d cid).
  assert (HP : Profit r = (Sales r * margin_rate (Segment r))%float)
    by apply prepare_profit.
  assert (HM : Profit_Margin r
               = (if negb (Sales r =? 0)
                  then Sales r * margin_rate (Segment r) / Sales r * 100
                  else 0)%float)
    by apply prepare_profit_margin.
  assert (Finite : is_finite (Sales r) = true ->
                   is_finite (Profit_Margin r) = true).
  { intros F. rewrite HM. apply margin_finite; [apply margin_rate_shape|exact F]. }
  split; [|split; [|split; [|split]]].
  - intros Z0. rewrite HM, Z0. reflexivity.
  - intros Z0. rewrite HM, HP, Z0. reflexivity.
  - exact Finite.
  - intros F. rewrite HM.
    destruct (not_finite_values _ F) as [-> | [-> | ->]];
      destruct (margin_rate_values (Segment r)) as [-> | [-> | ->]];
      reflexivity.
  - pose proof (product_finite
                  (fillna0 (Quantity r)) (fillna0 (UnitPrice r))) as PF.
    change (product (fillna0 (Quantity r)) (fillna0 (UnitPrice r)))
      with (Sales r) in PF.
    destruct (Sales r); auto.
Qed.

(** C9: in every line of the loaded table, Category equals Segment; so a
    filter whose category selection is its segment selection keeps the
    lines that the other criteria and the segment selection alone keep. *)
Theorem category_is_segment (df : Sheet) (t : Table) :
  load df = Some t ->
  (forall r, In r t -> Category r = Segment r)
  /\ (forall filters, category filters = segment filters ->
      apply_filters t filters = filter (matches_but_category filters) t).
Proof.
  intros E.
  assert (H : forall r, In r t -> Category r = Segment r).
  { intros r Hr. from_sheet E Hr. reflexivity. }
  split; [exact H|].
  intros filters Ecs. rewrite apply_filters_matches.
  apply filter_ext_in. intros r Hr. unfold matches, matches_but_category.
  rewrite Ecs, (H r Hr).
  destruct (isin (segment filters) (Segment r)),
           (isin (region filters) (Region r)),
           (year filters) as [y|]; simpl;
    try destruct (Year r =? y); reflexivity.
Qed.

End LoaderClaims.

Lemma profit_is_sales_times_margin_rate_witness :
  load_and_prepare no_number no_date sample_sheet = Some sample_table
  /\ In holder_line sample_table
  /\ Profit holder_line
     = (Sales holder_line * margin_rate (Segment holder_line))%float.
Proof.
  split; [exact sample_load|]. split; [simpl; auto|].
  apply (profit_is_sales_times_margin_rate no_number no_date
           sample_sheet sample_table holder_line).
  - exact sample_load.
  - simpl; auto.
Defined.

(** The claim C5 as written fails on [wholesale_sheet], whose Quantity and
    UnitPrice are int64 columns: the Sales of its first line is not the
    product of its Quantity and UnitPrice, which is beyond int64, but what
    is left of that product modulo 2^64; nor do the two agree as float64. *)
Lemma sales_wraps_around :
  load_and_prepare no_number no_date wholesale_sheet = Some wholesale_table
  /\ In craft_line wholesale_table
  /\ Quantity craft_line = Int64 5000000000
  /\ UnitPrice craft_line = Int64 5000000000
  /\ Sales craft_line = Int64 6553255926290448384
  /\ 6553255926290448384 <> 5000000000 * 5000000000
  /\ (Sales craft_line =? Quantity craft_line * UnitPrice craft_line)%float
     = false.
Proof.
  split; [exact wholesale_load|]. split; [simpl; auto|].
  repeat split; try reflexivity. discriminate.
Qed.

Lemma sales_is_product_of_columns_witness :
  load_and_prepare no_number no_date wholesale_sheet = Some wholesale_table
  /\ In jar_line wholesale_table
  /\ Quantity jar_line = Int64 94906267
  /\ UnitPrice jar_line = Int64 94906267
  /\ exists s,
       Sales jar_line = Int64 s
       /\ F64.int64_min <= s <= F64.int64_max
       /\ (s - 94906267 * 94906267) mod 2 ^ 64 = 0
       /\ (F64.int64_min <= 94906267 * 94906267 <= F64.int64_max ->
           s = 94906267 * 94906267).
Proof.
  split; [exact wholesale_load|]. split; [simpl; auto|].
  split; [reflexivity|]. split; [reflexivity|].
  apply (sales_is_product_of_columns no_number no_date
           wholesale_sheet wholesale_table jar_line).
  - exact wholesale_load.
  - simpl; auto.
Defined.

(** The claim C6 as written fails on [overflow_sheet]: Sales is not 0 there,
    and the Profit Margin % that the division gives is NaN. *)
Lemma profit_margin_nan_on_overflow :
  load_and_prepare no_number no_date overflow_sheet = Some overflow_table
  /\ In bunting_line overflow_table
  /\ (Sales bunting_line =? 0)%float = false
  /\ Sales bunting_line = Float64 infinity
  /\ is_nan (Profit_Margin bunting_line) = true.
Proof.
  split; [exact overflow_load|]. split; [simpl; auto|].
  repeat split; vm_compute; reflexivity.
Qed.

Lemma profit_margin_finite_with_sales_witness :
  load_and_prepare no_number no_date sample_sheet = Some sample_table
  /\ In lantern_line sample_table
  /\ (Sales lantern_line =? 0)%float = false
  /\ is_finite (Sales lantern_line) = true
  /\ Profit_Margin lantern_line
     = (Profit lantern_line / Sales lantern_line * 100)%float
  /\ is_finite (Profit_Margin lantern_line) = true.
Proof.
  split; [exact sample_load|]. split; [simpl; auto|].
  split; [reflexivity|]. split; [reflexivity|].
  destruct (profit_margin_finite_with_sales no_number no_date
              sample_sheet sample_table lantern_line)
    as (_ & Ratio & Finite & _).
  - exact sample_load.
  - simpl; auto.
  - split; [apply Ratio | apply Finite]; reflexivity.
Defined.

Lemma category_is_segment_witness :
  load_and_prepare no_number no_date sample_sheet = Some sample_table
  /\ Category lantern_line = Segment lantern_line
  /\ apply_filters sample_table sample_filters
     = filter (matches_but_category sample_filters) sample_table.
Proof.
  split; [exact sample_load|].
  destruct (category_is_segment no_number no_date sample_sheet sample_table
              sample_load) as [Hrow Hfilter].
  split.
  - apply Hrow. simpl; auto.
  - apply Hfilter. reflexivity.
Defined.

(** ** Filter engine *)

(** C7: applying a filter specification to the table it has already
    filtered gives that table again. *)
Theorem apply_filters_idempotent (df : Table) (filters : Filters) :
  apply_filters (apply_filters df filters) filters = apply_filters df filters.
Proof.
  rewrite !apply_filters_matches. apply filter_idem.
Qed.

(** C8: with an empty region selection the filtered table has no line,
    whatever the year, the category and segment selections and the date
    range are. *)
Theorem empty_region_no_rows (df : Table) (filters : Filters) :
  region filters = [] -> apply_filters df filters = [].
Proof.
  intros E. rewrite apply_filters_matches. apply filter_none.
  intros r _. unfold matches. rewrite E. simpl.
  rewrite andb_false_r, andb_false_r. reflexivity.
Qed.

Lemma empty_region_no_rows_witness :
  region no_region_filters = []
  /\ apply_filters sample_table no_region_filters = [].
Proof.
  split; [reflexivity|].
  apply (empty_region_no_rows sample_table no_region_filters). reflexivity.
Defined.

(** ** Aggregator *)

Lemma filter_other_id (a : Z) (l : list Z) :
  ~ In a l -> filter (fun c => negb (c =? a)) l = l.
Proof.
  intros H. apply forallb_filter_id. apply forallb_forall.
  intros c Hc. apply negb_true_iff, Z.eqb_neq. intros ->. contradiction.
Qed.

Lemma In_filter_other (a x : Z) (l : list Z) :
  x <> a -> (In x (filter (fun c => negb (c =? a)) l) <-> In x l).
Proof.
  intros N. rewrite filter_In. split; [tauto|].
  intros H. split; [assumption|]. now apply negb_true_iff, Z.eqb_neq.
Qed.

(** A value present in a column is one of its distinct values: the column
    has one distinct value more than it has without that value. *)
Lemma nunique_with_value (a : Z) (l : list Z) :
  In a l ->
  nunique Z.eq_dec l = S (nunique Z.eq_dec (filter (fun c => negb (c =? a)) l)).
Proof.
  unfold nunique. induction l as [|x l IH]; intros Hin; [destruct Hin|].
  simpl nodup. simpl filter. destruct (Z.eq_dec x a) as [->|N].
  - rewrite Z.eqb_refl. simpl negb. cbv iota.
    destruct (in_dec Z.eq_dec a l) as [Hal|Hal].
    + apply IH, Hal.
    + simpl. rewrite (filter_other_id a l Hal). reflexivity.
  - destruct Hin as [E|Hin]; [contradiction|].
    apply Z.eqb_neq in N as N'. rewrite N'. simpl negb. cbv iota. simpl nodup.
    destruct (in_dec Z.eq_dec x l) as [Hxl|Hxl];
      destruct (in_dec Z.eq_dec x (filter (fun c => negb (c =? a)) l)) as [Hxf|Hxf].
    + apply IH, Hin.
    + exfalso. apply Hxf. now apply In_filter_other.
    + exfalso. apply Hxl. now apply (In_filter_other a x l).
    + simpl. f_equal. apply IH, Hin.
Qed.

(** C10: when a line of the sheet that has a date has no customer id, the
    customer count of the KPI summary over the loaded table is one more than
    the number of distinct customer ids other than -1. *)
Theorem missing_customer_counts_once
    (coerce_numeric : cell -> scalar) (coerce_datetime : cell -> option Z)
    (df : Sheet) (t : Table) (raw : Raw.row) (d : Z) :
  load_and_prepare coerce_numeric coerce_datetime df = Some t ->
  In raw (rows df) ->
  to_datetime coerce_datetime (Raw.InvoiceDate raw) = Some d ->
  F64.isna (customer coerce_numeric (map strip (columns df)) raw) = true ->
  In (-1) (map Customer_ID t)
  /\ total_customers (calculate_kpis t)
     = S (nunique Z.eq_dec
            (filter (fun c => negb (c =? -1)) (map Customer_ID t))).
Proof.
  intros E Hraw Ed Hna.
  destruct (row_loaded _ _ df t raw d E Hraw Ed) as (cid & Ec & Hin).
  assert (cid = -1) as ->.
  { destruct (customer coerce_numeric (map strip (columns df)) raw)
      as [n|x] eqn:Ecust.
    - unfold F64.isna in Hna. simpl in Hna.
      rewrite of_Z_not_nan in Hna. discriminate.
    - assert (D : customer_dtype coerce_numeric df = float64).
      { apply (dtype_of_real _ x). rewrite <- Ecust.
        apply in_map. exact Hraw. }
      rewrite D in Ec. unfold customer_id, F64.fillna in Ec.
      simpl in Ec, Hna. rewrite Hna in Ec. vm_compute in Ec. congruence. }
  assert (Hs : In (-1) (map Customer_ID t)).
  { apply in_map_iff. eexists. split; [|exact Hin]. reflexivity. }
  split; [exact Hs|]. simpl. apply nunique_with_value, Hs.
Qed.

Lemma missing_customer_counts_once_witness :
  load_and_prepare no_number no_date sample_sheet = Some sample_table
  /\ total_customers (calculate_kpis sample_table) = 3%nat
  /\ In (-1) (map Customer_ID sample_table)
  /\ total_customers (calculate_kpis sample_table)
     = S (nunique Z.eq_dec
            (filter (fun c => negb (c =? -1)) (map Customer_ID sample_table))).
Proof.
  split; [exact sample_load|]. split; [reflexivity|].
  apply (missing_customer_counts_once no_number no_date sample_sheet sample_table
           (sale 536365 "71053" "HOLDER" (Integer 1) (Number 50) (day 15042)
                 Blank "Greece" (Some (Str "B2B")))
           (Calendar.to_datetime 15042)).
  - exact sample_load.
  - simpl; auto.
  - reflexivity.
  - reflexivity.
Defined.

(** C1: on the table without lines the KPI summary returns 0 for the two
    sums, the two counts and the profit margin, and NaN, not 0, for the mean
    of Sales. *)
Theorem kpis_of_empty_table :
  calculate_kpis []
  = {| total_sales := 0;
       total_profit := 0;
       total_orders := 0;
       total_customers := 0;
       avg_order_value := nan;
       profit_margin := 0 |}
  /\ is_nan (avg_order_value (calculate_kpis [])) = true
  /\ (avg_order_value (calculate_kpis []) =? 0)%float = false.
Proof. repeat split. Qed.

Section SortingFacts.

Context {A : Type} (before : A -> A -> bool).

Lemma insert_In (x y : A) (l : list A) :
  In y (insert before x l) <-> y = x \/ In y l.
Proof.
  induction l as [|z l IH]; simpl.
  - intuition congruence.
  - destruct (before x z); simpl; [intuition congruence|].
    rewrite IH. intuition congruence.
Qed.

Lemma sort_In (y : A) (l : list A) : In y (sort before l) <-> In y l.
Proof.
  induction l as [|x l IH]; simpl; [reflexivity|].
  rewrite insert_In, IH. intuition congruence.
Qed.

End SortingFacts.

Lemma sort_values_In (a : Details.agg) (l : list Details.agg) :
  In a (sort_values l) -> In a l.
Proof.
  unfold sort_values. rewrite in_app_iff, sort_In, !filter_In. tauto.
Qed.

(** Every line of the breakdown carries, as Orders, the number of lines of
    its group that have an order id. *)
Lemma grouped_orders (groupby : Dimension) (df : Table) (g : Details.row) :
  In g (grouped groupby df) ->
  Details.Orders (Details.line g)
  = List.length (choose Order_ID (members groupby df (Details.key (Details.line g)))).
Proof.
  unfold grouped. rewrite in_map_iff. intros (a & <- & Ha).
  apply sort_values_In in Ha. apply in_map_iff in Ha.
  destruct Ha as (k & <- & _). reflexivity.
Qed.

(** C2: on [sample_table], whose three lines are sold in one country under
    two order ids, the breakdown by region has one line and its Orders is 3,
    the number of lines, while the group has 2 distinct order ids. *)
Theorem orders_counts_lines_not_orders :
  map (fun g => (Details.key (Details.line g), Details.Orders (Details.line g)))
      (grouped By_Region sample_table)
  = [(Str "Greece", 3%nat)]
  /\ nunique label_eq_dec
       (choose Order_ID (members By_Region sample_table (Str "Greece")))
     = 2%nat
  /\ total_orders (calculate_kpis sample_table) = 2%nat.
Proof. repeat split. Qed.

(** ** Export *)

Lemma renumber_values (i : Z) (l : list (cell * list cell)) :
  map snd (renumber i l) = map (fun r => fst r :: snd r) l.
Proof.
  revert i. induction l as [|[k vs] l IH]; intros i; simpl; [reflexivity|].
  rewrite IH. reflexivity.
Qed.

(** C3: for every grouped table, the bytes offered for download are those
    of the sheet that writing the table with its index gives.  Its header
    names the index, which is the grouping column, first, and then the
    table's columns in the table's own order: Sales, Profit, Quantity,
    Orders and Profit Margin %; each line below leads with its index value,
    the group, followed by its values in that order, one line per group in
    the order of the table. *)
Theorem export_keeps_index_and_order
    (save : Worksheet -> list Byte.byte) (groupby : Dimension)
    (g : list Details.row) :
  download save groupby g = save (to_excel true (frame_of groupby g))
  /\ to_excel true (frame_of groupby g)
     = (Text (dimension_name groupby)
        :: map Text ["Sales"; "Profit"; "Quantity"; "Orders";
                     "Profit Margin %"]%string)
       :: map (fun r =>
                 [cell_of_label (Details.key (Details.line r));
                  Number (Details.Sales (Details.line r));
                  Number (Details.Profit (Details.line r));
                  Number (Details.Quantity (Details.line r));
                  Integer (Z.of_nat (Details.Orders (Details.line r)));
                  Number (Details.Profit_Margin_pct r)]) g.
Proof.
  split.
  - unfold download, to_excel_bytes, to_excel, reset_index. simpl.
    rewrite renumber_values. reflexivity.
  - unfold to_excel, frame_of. simpl. rewrite map_map. reflexivity.
Qed.

(** * Further properties of the code *)

(** ** Conversion to int64 *)

(** [astype(int)] raises exactly on NaN and on the infinities. *)
Lemma astype_int_raises_iff (x : float) :
  F64.astype_int x = None <-> is_nan x = true \/ is_infinity x = true.
Proof.
  rewrite is_nan_spec, is_infinity_spec.
  unfold F64.astype_int, F64.trunc.
  destruct (Prim2SF x) as [s|s| |s m e]; simpl; split;
    try discriminate; try reflexivity;
    try (intros [H|[s' H]]; discriminate).
  - intros _. right. exists s. reflexivity.
  - intros _. left. reflexivity.
Qed.

(** A customer id column filled with -1 fails to convert exactly where it
    held an infinity. *)
Lemma filled_id_raises_iff (x : float) :
  F64.astype_int (F64.fillna (-1) x) = None <-> is_infinity x = true.
Proof.
  rewrite astype_int_raises_iff. unfold F64.fillna, F64.isna.
  destruct (is_nan x) eqn:N.
  - split.
    + intros [H|H]; vm_compute in H; discriminate.
    + intros H. apply is_infinity_spec in H. destruct H as [s H].
      apply is_nan_spec in N. congruence.
  - rewrite N. split; [intros [H|H]; [discriminate|exact H] | auto].
Qed.

(** ** Loader: errors, kept lines, header *)

Lemma mapM_raises_iff {A B : Type} (f : A -> option B) (l : list A) :
  mapM f l = None <-> exists a, In a l /\ f a = None.
Proof.
  induction l as [|a l IH]; simpl.
  - split; [discriminate | intros (a & [] & _)].
  - destruct (f a) as [b|] eqn:Ea; simpl.
    + destruct (mapM f l) as [bs|]; simpl; split.
      * discriminate.
      * intros (a' & [<-|Ha'] & E); [congruence|].
        assert (H : Some bs = None) by (apply IH; exists a'; auto).
        discriminate.
      * intros _. destruct (proj1 IH eq_refl) as (a' & Ha' & E).
        exists a'. auto.
      * reflexivity.
    + split; [|reflexivity]. intros _. exists a. auto.
Qed.

Lemma mapM_project {A B C : Type} (f : A -> option B) (g : B -> C) (h : A -> C)
    (l : list A) (l' : list B) :
  (forall a b, f a = Some b -> g b = h a) ->
  mapM f l = Some l' -> map g l' = map h l.
Proof.
  intros Hf. revert l'. induction l as [|a l IH]; simpl; intros l' E.
  - injection E as <-. reflexivity.
  - destruct (f a) as [b|] eqn:Ea; simpl in E; [|discriminate].
    destruct (mapM f l) as [bs|]; simpl in E; [|discriminate].
    injection E as <-. simpl. rewrite (Hf a b Ea), (IH bs eq_refl). reflexivity.
Qed.

Lemma choose_project {A B C : Type} (f : A -> option B) (g : B -> C) (l : list A) :
  map g (choose f l) = choose (fun a => option_map g (f a)) l.
Proof.
  induction l as [|a l IH]; simpl; [reflexivity|].
  destruct (f a); simpl; rewrite IH; reflexivity.
Qed.

(** X1: [load_and_prepare] raises when the stripped header lacks
    "Quantity", "UnitPrice" or "InvoiceDate", when it has more than once one
    of the four names whose columns are parsed, and when a line that has a
    date has an infinite customer id. *)
Theorem load_raises
    (coerce_numeric : cell -> scalar) (coerce_datetime : cell -> option Z)
    (df : Sheet) :
  has (map strip (columns df)) "Quantity" = false
  \/ has (map strip (columns df)) "UnitPrice" = false
  \/ has (map strip (columns df)) "InvoiceDate" = false
  \/ (exists c,
        In c parsed_columns
        /\ (1 < List.length (filter (String.eqb c) (map strip (columns df))))%nat)
  \/ (exists raw,
        In raw (rows df)
        /\ to_datetime coerce_datetime (Raw.InvoiceDate raw) <> None
        /\ is_infinity (customer coerce_numeric (map strip (columns df)) raw)
           = true) ->
  load_and_prepare coerce_numeric coerce_datetime df = None.
Proof.
  unfold load_and_prepare.
  intros [H|[H|[H|[(c & Hc & Hn)|(raw & Hraw & Hd & Hinf)]]]];
    try (rewrite H; rewrite ?andb_false_r; reflexivity).
  - assert (U : unambiguous (map strip (columns df)) = false).
    { apply not_true_iff_false. unfold unambiguous. rewrite forallb_forall.
      intros U. specialize (U c (in_or_app _ _ _ (or_introl Hc))).
      apply Nat.leb_le in U. lia. }
    rewrite U, andb_false_r. reflexivity.
  - destruct (_ && _ && _ && _); [|reflexivity].
    destruct (to_datetime coerce_datetime (Raw.InvoiceDate raw)) as [d|] eqn:Et;
      [|contradiction].
    apply mapM_raises_iff. exists (raw, d). split.
    + apply choose_In. exists raw. split; [assumption|].
      unfold dated. rewrite Et. reflexivity.
    + unfold finalize. simpl.
      replace (customer_id _ _) with (@None Z); [reflexivity|].
      symmetry. unfold customer_id.
      destruct (customer coerce_numeric (map strip (columns df)) raw)
        as [n|x] eqn:Ecust.
      * destruct (customer_dtype coerce_numeric df) eqn:D; simpl;
          try (apply filled_id_raises_iff; exact Hinf);
          exfalso;
          assert (R : F64.int64_min <= n <= uint64_max)
            by (apply (dtype_of_range
                         (map (customer coerce_numeric (map strip (columns df)))
                              (rows df)));
                [unfold customer_dtype in D; rewrite D; discriminate
                | rewrite <- Ecust; apply in_map; exact Hraw]);
          assert (F : is_finite (F64.of_Z n) = true)
            by (apply of_Z_finite; unfold F64.int64_min, uint64_max in R;
                apply Z.lt_le_trans with (2 ^ 65);
                [lia | apply Z.pow_le_mono_r; lia]);
          unfold is_finite in F; simpl in Hinf; rewrite Hinf in F;
          rewrite orb_true_r in F; discriminate.
      * simpl. apply filled_id_raises_iff. exact Hinf.
Qed.

Lemma load_raises_witness :
  In (sale 536370 "22632" "HOT WATER BOTTLE" (Integer 1) (Number 2.1)
           (day 15042) (Number infinity) "Greece" None)
     (rows infinite_id_sheet)
  /\ load_and_prepare no_number no_date infinite_id_sheet = None.
Proof.
  split; [simpl; auto|].
  apply (load_raises no_number no_date infinite_id_sheet).
  right. right. right. right.
  exists (sale 536370 "22632" "HOT WATER BOTTLE" (Integer 1) (Number 2.1)
               (day 15042) (Number infinity) "Greece" None).
  split; [simpl; auto|]. split; [discriminate|reflexivity].
Defined.

(** X2: the loaded table holds, in the order of the sheet, one line for each
    line of the sheet that has a date, and none for the others. *)
Theorem loaded_dates
    (coerce_numeric : cell -> scalar) (coerce_datetime : cell -> option Z)
    (df : Sheet) (t : Table) :
  load_and_prepare coerce_numeric coerce_datetime df = Some t ->
  map Order_Date t
  = choose (fun raw => to_datetime coerce_datetime (Raw.InvoiceDate raw)) (rows df).
Proof.
  unfold load_and_prepare.
  destruct (has _ "Quantity" && has _ "UnitPrice" && has _ "InvoiceDate"
            && unambiguous _);
    [|discriminate].
  intros E.
  assert (Hf : forall rt r,
             finalize coerce_numeric (map strip (columns df))
               (quantity_dtype coerce_numeric df)
               (unitprice_dtype coerce_numeric df)
               (customer_dtype coerce_numeric df) rt = Some r ->
             Order_Date r = snd rt).
  { intros rt r. unfold finalize.
    destruct (customer_id _ _); simpl; [|discriminate].
    intros H. injection H as <-. reflexivity. }
  rewrite (mapM_project _ Order_Date snd _ _ Hf E), choose_project. clear E Hf.
  induction (rows df) as [|raw l IH]; simpl; [reflexivity|].
  unfold dated at 1.
  destruct (to_datetime coerce_datetime (Raw.InvoiceDate raw));
    simpl; rewrite IH; reflexivity.
Qed.

Lemma loaded_dates_witness :
  load_and_prepare no_number no_date sample_sheet = Some sample_table
  /\ map Order_Date sample_table
     = [Calendar.to_datetime 15042; Calendar.to_datetime 15042;
        Calendar.to_datetime 15043].
Proof.
  split; [exact sample_load|].
  exact (loaded_dates no_number no_date sample_sheet sample_table sample_load).
Defined.

Lemma stripped_fixed (backwards : bool) (l : list ascii) :
  stripped backwards l -> drop_spaces backwards l = l.
Proof.
  destruct l as [|a [|b [|c l]]]; simpl; try reflexivity.
  - intros [-> _]. reflexivity.
  - intros (-> & -> & _). reflexivity.
  - intros (-> & -> & ->). reflexivity.
Qed.

(** What [drop_spaces] leaves is a tail of the bytes, led by no white space. *)
Lemma drop_spaces_spec (backwards : bool) (n : nat) (l : list ascii) :
  (List.length l <= n)%nat ->
  stripped backwards (drop_spaces backwards l)
  /\ exists spaces, l = spaces ++ drop_spaces backwards l.
Proof.
  revert l. induction n as [|n IH]; intros l Hn.
  - destruct l; [|simpl in Hn; lia]. split; [exact I | exists []; reflexivity].
  - destruct l as [|a l1]; [split; [exact I | exists []; reflexivity]|].
    simpl in Hn. cbn [drop_spaces]. destruct (space1 a) eqn:S1.
    + destruct (IH l1 ltac:(lia)) as (H & sp & E).
      split; [exact H|]. exists (a :: sp). simpl. f_equal. exact E.
    + destruct l1 as [|b l2].
      * split; [simpl; auto | exists []; reflexivity].
      * simpl in Hn.
        destruct (if backwards then space2 b a else space2 a b) eqn:S2.
        -- destruct (IH l2 ltac:(lia)) as (H & sp & E).
           split; [exact H|]. exists (a :: b :: sp). simpl. do 2 f_equal. exact E.
        -- destruct l2 as [|c l3].
           ++ split; [simpl; auto | exists []; reflexivity].
           ++ simpl in Hn.
              destruct (if backwards then space3 c b a else space3 a b c) eqn:S3.
              ** destruct (IH l3 ltac:(lia)) as (H & sp & E).
                 split; [exact H|]. exists (a :: b :: c :: sp). simpl.
                 do 3 f_equal. exact E.
              ** split; [simpl; auto | exists []; reflexivity].
Qed.

(** The leading bytes of bytes that no white space leads. *)
Lemma stripped_prefix (p q : list ascii) :
  stripped false (p ++ q) -> stripped false p.
Proof.
  destruct p as [|a [|b [|c p]]]; simpl; tauto.
Qed.

Lemma strip_bytes (s : string) :
  exists l,
    strip s = string_of_list_ascii l
    /\ stripped false l /\ stripped true (rev l).
Proof.
  unfold strip, rstrip, lstrip. rewrite list_ascii_of_string_of_list_ascii.
  set (l := drop_spaces false (list_ascii_of_string s)).
  assert (Hl : stripped false l)
    by apply (drop_spaces_spec false _ _ (le_n _)).
  destruct (drop_spaces_spec true _ (rev l) (le_n _)) as (Hr & sp & E).
  exists (rev (drop_spaces true (rev l))). split; [reflexivity|].
  rewrite rev_involutive. split; [|exact Hr].
  apply (stripped_prefix _ (rev sp)).
  rewrite <- rev_app_distr, <- E, rev_involutive. exact Hl.
Qed.

Lemma strip_idempotent (s : string) : strip (strip s) = strip s.
Proof.
  destruct (strip_bytes s) as (l & -> & Hl & Hr).
  unfold strip, rstrip, lstrip.
  rewrite !list_ascii_of_string_of_list_ascii, (stripped_fixed false l Hl).
  rewrite (stripped_fixed true (rev l) Hr), rev_involutive. reflexivity.
Qed.

(** X3: blanks around the names of the header do not matter: a sheet loads
    as the same sheet with its header names stripped. *)
Theorem load_ignores_header_padding
    (coerce_numeric : cell -> scalar) (coerce_datetime : cell -> option Z)
    (header : list string) (lines : list Raw.row) :
  load_and_prepare coerce_numeric coerce_datetime
    {| columns := map strip header; rows := lines |}
  = load_and_prepare coerce_numeric coerce_datetime
      {| columns := header; rows := lines |}.
Proof.
  unfold load_and_prepare, quantity_dtype, unitprice_dtype, customer_dtype.
  simpl. rewrite map_map, (map_ext _ strip strip_idempotent). reflexivity.
Qed.

(** ** Filter engine: what is kept, composition, edges *)

Lemma isin_In (values : list (option label)) (x : option label) :
  isin values x = true <-> In x values.
Proof.
  unfold isin. rewrite existsb_exists. split.
  - intros (v & Hv & E). destruct (key_eq_dec x v) as [->|]; [assumption|discriminate].
  - intros H. exists x. split; [assumption|].
    destruct (key_eq_dec x x); [reflexivity|contradiction].
Qed.

(** The criteria of a filter specification, as propositions. *)
Lemma matches_spec (filters : Filters) (r : Row) :
  matches filters r = true
  <-> (forall y, year filters = Some y -> Year r = y)
      /\ In (Category r) (category filters)
      /\ In (Region r) (region filters)
      /\ In (Segment r) (segment filters)
      /\ Calendar.to_datetime (fst (date_range filters)) <= Order_Date r
      /\ Order_Date r <= Calendar.to_datetime (snd (date_range filters)).
Proof.
  unfold matches. rewrite !andb_true_iff, !isin_In, !Z.leb_le.
  destruct (year filters) as [y|].
  - rewrite Z.eqb_eq. split; intros H.
    + assert (Hy : Year r = y) by tauto.
      split; [intros y' E; congruence | tauto].
    + destruct H as (Hy & H). specialize (Hy y eq_refl). tauto.
  - assert (T : true = true) by reflexivity.
    split; intros H; [split; [discriminate | tauto] | tauto].
Qed.

(** X4: the filtered table holds exactly the lines of the table that meet
    every criterion: the year when one is chosen, membership in the three
    selections, and a date from the midnight that starts the first day of
    the range to the midnight that starts its last day. *)
Theorem filtered_rows (df : Table) (filters : Filters) (r : Row) :
  In r (apply_filters df filters)
  <-> In r df
      /\ (forall y, year filters = Some y -> Year r = y)
      /\ In (Category r) (category filters)
      /\ In (Region r) (region filters)
      /\ In (Segment r) (segment filters)
      /\ Calendar.to_datetime (fst (date_range filters)) <= Order_Date r
      /\ Order_Date r <= Calendar.to_datetime (snd (date_range filters)).
Proof.
  rewrite apply_filters_matches, filter_In, matches_spec. reflexivity.
Qed.

(** X5: two filter specifications can be applied in either order. *)
Theorem apply_filters_commute (df : Table) (f g : Filters) :
  apply_filters (apply_filters df f) g = apply_filters (apply_filters df g) f.
Proof.
  rewrite !apply_filters_matches, !filter_filter.
  apply filter_ext. intros r. apply andb_comm.
Qed.

(** X6: a specification that selects more keeps more: with the same year
    or none, larger selections and a wider date range, no line is lost. *)
Theorem apply_filters_monotone (df : Table) (f g : Filters) :
  (year g = None \/ year g = year f) ->
  incl (category f) (category g) ->
  incl (region f) (region g) ->
  incl (segment f) (segment g) ->
  fst (date_range g) <= fst (date_range f) ->
  snd (date_range f) <= snd (date_range g) ->
  incl (apply_filters df f) (apply_filters df g).
Proof.
  intros Hy Hc Hr Hs Hlo Hhi r.
  rewrite !apply_filters_matches, !filter_In, !matches_spec.
  unfold Calendar.to_datetime, Calendar.ns_per_day.
  intros (Hin & Hyr & Hcr & Hrr & Hsr & Hstart & Hend).
  repeat split; auto; try lia.
  intros y E. destruct Hy as [Hy|Hy]; [congruence|].
  apply Hyr. congruence.
Qed.

Lemma apply_filters_monotone_witness :
  incl (apply_filters sample_table sample_filters)
       (apply_filters sample_table
          {| year := None;
             category := category sample_filters;
             region := Some (Str "Italy") :: region sample_filters;
             segment := segment sample_filters;
             date_range := (14000, 16000) |}).
Proof.
  apply (apply_filters_monotone sample_table sample_filters).
  - left. reflexivity.
  - apply incl_refl.
  - apply incl_tl, incl_refl.
  - apply incl_refl.
  - simpl. lia.
  - simpl. lia.
Defined.

(** X7: an empty category selection, or an empty segment selection, leaves
    no line. *)
Theorem empty_selection_no_rows (df : Table) (filters : Filters) :
  category filters = [] \/ segment filters = [] ->
  apply_filters df filters = [].
Proof.
  intros H. rewrite apply_filters_matches. apply filter_none.
  intros r _. unfold matches.
  destruct H as [-> | ->]; simpl;
    rewrite ?andb_false_r; reflexivity.
Qed.

Lemma empty_selection_no_rows_witness :
  apply_filters sample_table
    {| year := None;
       category := [];
       region := [Some (Str "Greece")];
       segment := [Some (Str "Retail"); Some (Str "B2B"); None];
       date_range := (15000, 15100) |} = [].
Proof.
  apply empty_selection_no_rows. left. reflexivity.
Defined.

(** X8: a date range whose end is before its start leaves no line. *)
Theorem inverted_range_no_rows (df : Table) (filters : Filters) :
  snd (date_range filters) < fst (date_range filters) ->
  apply_filters df filters = [].
Proof.
  intros H. rewrite apply_filters_matches. apply filter_none.
  intros r _. destruct (matches filters r) eqn:E; [|reflexivity].
  apply matches_spec in E. exfalso.
  unfold Calendar.to_datetime, Calendar.ns_per_day in E. lia.
Qed.

Lemma inverted_range_no_rows_witness :
  apply_filters sample_table
    {| year := None;
       category := [Some (Str "Retail"); Some (Str "B2B"); None];
       region := [Some (Str "Greece")];
       segment := [Some (Str "Retail"); Some (Str "B2B"); None];
       date_range := (15043, 15042) |} = [].
Proof.
  apply inverted_range_no_rows. simpl. lia.
Defined.

(** X9: the range ends at the midnight that starts its last day: a line
    dated on that day at any later time is filtered out. *)
Theorem end_day_after_midnight_dropped (df : Table) (filters : Filters) (r : Row) :
  Calendar.days (Order_Date r) = snd (date_range filters) ->
  Order_Date r mod Calendar.ns_per_day <> 0 ->
  ~ In r (apply_filters df filters).
Proof.
  intros Hday Htime Hin.
  rewrite apply_filters_matches, filter_In, matches_spec in Hin.
  destruct Hin as (_ & _ & _ & _ & _ & _ & Hend).
  rewrite <- Hday in Hend. unfold Calendar.to_datetime, Calendar.days in Hend.
  assert (Hns : 0 < Calendar.ns_per_day) by reflexivity.
  pose proof (Z.div_mod (Order_Date r) Calendar.ns_per_day) as Hdm.
  pose proof (Z.mod_pos_bound (Order_Date r) Calendar.ns_per_day Hns) as Hb.
  lia.
Qed.

Lemma end_day_after_midnight_dropped_witness :
  In evening_line (evening_line :: sample_table)
  /\ ~ In evening_line
       (apply_filters (evening_line :: sample_table)
          {| year := None;
             category := [Some (Str "Retail"); Some (Str "B2B"); None];
             region := [Some (Str "Greece")];
             segment := [Some (Str "Retail"); Some (Str "B2B"); None];
             date_range := (15042, 15042) |}).
Proof.
  split; [simpl; auto|].
  apply end_day_after_midnight_dropped.
  - reflexivity.
  - vm_compute. discriminate.
Defined.

(** ** Sorting *)

Section SortingOrder.

Context {A : Type} (before : A -> A -> bool).

Lemma insert_Permutation (x : A) (l : list A) :
  Permutation (insert before x l) (x :: l).
Proof.
  induction l as [|y l IH]; simpl; [reflexivity|].
  destruct (before x y); [reflexivity|].
  rewrite IH. apply perm_swap.
Qed.

Lemma sort_Permutation (l : list A) : Permutation (sort before l) l.
Proof.
  induction l as [|x l IH]; simpl; [reflexivity|].
  rewrite insert_Permutation, IH. reflexivity.
Qed.

(** Where any two elements are comparable one way or the other, insertion
    keeps a list in order. *)
Lemma insert_Sorted (total : A -> Prop) (x : A) (l : list A) :
  (forall a b, total a -> total b -> before a b = false -> before b a = true) ->
  total x -> Forall total l ->
  Sorted (fun a b => before a b = true) l ->
  Sorted (fun a b => before a b = true) (insert before x l).
Proof.
  intros Htot Hx Hl Hs. induction Hs as [|y l Hs IH Hhd]; simpl.
  - repeat constructor.
  - inversion Hl as [|? ? Hy Hl']; subst.
    destruct (before x y) eqn:E.
    + constructor; [constructor; assumption|]. constructor. exact E.
    + constructor; [apply IH, Hl'|].
      destruct l as [|z l]; simpl.
      * constructor. apply Htot; assumption.
      * destruct (before x z).
        -- constructor. apply Htot; assumption.
        -- inversion Hhd; subst. constructor. assumption.
Qed.

Lemma sort_Sorted (total : A -> Prop) (l : list A) :
  (forall a b, total a -> total b -> before a b = false -> before b a = true) ->
  Forall total l ->
  Sorted (fun a b => before a b = true) (sort before l).
Proof.
  intros Htot Hl. induction Hl as [|x l Hx Hl IH]; simpl; [constructor|].
  apply (insert_Sorted total); auto.
  apply (Permutation_Forall (x := l)); [|assumption].
  symmetry. apply sort_Permutation.
Qed.

End SortingOrder.

Lemma label_leb_total (a b : label) :
  label_leb a b = false -> label_leb b a = true.
Proof.
  destruct a as [s|m], b as [t|n]; simpl; try discriminate; try reflexivity.
  - intros H. destruct (String.leb_total s t) as [E|E]; congruence.
  - intros H. apply Z.leb_le. apply Z.leb_gt in H. lia.
Qed.

(** Distinct values in adjacent order are in strict order. *)
Lemma Sorted_strict (l : list Z) :
  NoDup l -> Sorted (fun a b => (b <=? a) = true) l -> Sorted (fun a b => b < a) l.
Proof.
  intros Hn Hs. induction Hs as [|x l Hs IH Hhd]; [constructor|].
  inversion Hn as [|? ? Hx Hn']; subst.
  constructor; [apply IH, Hn'|].
  destruct Hhd as [|y l E]; constructor.
  apply Z.leb_le in E. assert (y <> x) by (intros ->; apply Hx; now left). lia.
Qed.

(** ** Sidebar *)

(** X10: the year selectbox offers "All" and then the years that occur in
    the table, each once, the latest first. *)
Theorem year_options_spec (df : Table) :
  exists years,
    year_options df = None :: map Some years
    /\ Sorted (fun a b => b < a) years
    /\ forall y, In y years <-> exists r, In r df /\ Year r = y.
Proof.
  unfold year_options.
  set (distinct := nodup Z.eq_dec (map Year df)).
  exists (sort (fun a b => b <=? a) distinct).
  split; [reflexivity|]. split.
  - apply Sorted_strict.
    + apply (Permutation_NoDup (l := distinct)).
      * symmetry. apply sort_Permutation.
      * apply NoDup_nodup.
    + apply (sort_Sorted _ (fun _ => True)).
      * intros a b _ _ H. apply Z.leb_le. apply Z.leb_gt in H. lia.
      * apply Forall_forall. auto.
  - intros y. rewrite sort_In. unfold distinct. rewrite nodup_In, in_map_iff.
    split; intros (r & H1 & H2); exists r; auto.
Qed.

Lemma fold_min_le (ts : list Z) (t : Z) :
  fold_left Z.min ts t <= t /\ forall x, In x ts -> fold_left Z.min ts t <= x.
Proof.
  revert t. induction ts as [|a ts IH]; intros t; simpl.
  - split; [lia | intros x []].
  - destruct (IH (Z.min t a)) as [H1 H2]. split; [lia|].
    intros x [<-|Hx]; [lia | auto].
Qed.

Lemma fold_max_ge (ts : list Z) (t : Z) :
  t <= fold_left Z.max ts t /\ forall x, In x ts -> x <= fold_left Z.max ts t.
Proof.
  revert t. induction ts as [|a ts IH]; intros t; simpl.
  - split; [lia | intros x []].
  - destruct (IH (Z.max t a)) as [H1 H2]. split; [lia|].
    intros x [<-|Hx]; [lia | auto].
Qed.

(** The default of the date picker spans the days of all the lines. *)
Lemma date_bounds_span (df : Table) (lo hi : Z) (r : Row) :
  date_bounds df = Some (lo, hi) -> In r df ->
  lo <= Calendar.days (Order_Date r) <= hi.
Proof.
  unfold date_bounds. destruct df as [|r0 df]; simpl; [discriminate|].
  intros E Hr. injection E as <- <-.
  destruct (fold_min_le (map Order_Date df) (Order_Date r0)) as [L1 L2].
  destruct (fold_max_ge (map Order_Date df) (Order_Date r0)) as [U1 U2].
  unfold Calendar.days.
  assert (Hns : 0 < Calendar.ns_per_day) by reflexivity.
  destruct Hr as [<-|Hr].
  - split; apply Z.div_le_mono; assumption.
  - assert (Hin : In (Order_Date r) (map Order_Date df)) by now apply in_map.
    split; apply Z.div_le_mono; auto.
Qed.

(** X11: with "All" years, selections that hold every value of the table
    and the default date range, the filter returns the table unchanged when
    every line is dated at midnight. *)
Theorem full_selection_keeps_all (df : Table) (filters : Filters) :
  year filters = None ->
  date_bounds df = Some (date_range filters) ->
  (forall r, In r df ->
     In (Category r) (category filters)
     /\ In (Region r) (region filters)
     /\ In (Segment r) (segment filters)) ->
  (forall r, In r df -> Order_Date r mod Calendar.ns_per_day = 0) ->
  apply_filters df filters = df.
Proof.
  intros Hy Hb Hsel Hmid. rewrite apply_filters_matches.
  apply forallb_filter_id, forallb_forall. intros r Hr.
  apply matches_spec. destruct (Hsel r Hr) as (Hc & Hg & Hs).
  destruct (date_range filters) as [lo hi] eqn:Edr. simpl.
  destruct (date_bounds_span df lo hi r Hb Hr) as [Hlo Hhi].
  specialize (Hmid r Hr).
  assert (Hns : 0 < Calendar.ns_per_day) by reflexivity.
  pose proof (Z.div_mod (Order_Date r) Calendar.ns_per_day) as Hdm.
  unfold Calendar.to_datetime, Calendar.days in *.
  repeat split; auto; try (rewrite Hy; discriminate); nia.
Qed.

Lemma full_selection_keeps_all_witness :
  apply_filters sample_table
    {| year := None;
       category := [Some (Str "Retail"); Some (Str "B2B"); None];
       region := [Some (Str "Greece")];
       segment := [Some (Str "Retail"); Some (Str "B2B"); None];
       date_range := (15042, 15043) |}
  = sample_table.
Proof.
  apply full_selection_keeps_all.
  - reflexivity.
  - reflexivity.
  - intros r [<-|[<-|[<-|[]]]]; simpl; auto 10.
  - intros r [<-|[<-|[<-|[]]]]; reflexivity.
Defined.

(** ** Breakdown and charts: groups, order, missing values *)

Lemma sort_values_Permutation (l : list Details.agg) :
  Permutation (sort_values l) l.
Proof.
  unfold sort_values. rewrite sort_Permutation.
  induction l as [|a l IH]; simpl; [reflexivity|].
  unfold F64.notna, F64.isna in *.
  destruct (is_nan (Details.Sales a)); simpl.
  - rewrite <- Permutation_middle. apply perm_skip, IH.
  - apply perm_skip, IH.
Qed.

Lemma grouped_keys_Permutation (groupby : Dimension) (df : Table) :
  Permutation
    (map (fun g => Details.key (Details.line g)) (grouped groupby df))
    (nodup label_eq_dec (choose (group_key groupby) df)).
Proof.
  unfold grouped. rewrite map_map. simpl.
  change (fun x : Details.agg => Details.key x) with Details.key.
  rewrite (Permutation_map Details.key (sort_values_Permutation _)).
  rewrite map_map. simpl. rewrite map_id.
  apply sort_Permutation.
Qed.

(** X12: the breakdown has exactly one line for each value that the
    grouping column takes in the table, and none for the lines whose
    grouping value is null. *)
Theorem grouped_one_line_per_key (groupby : Dimension) (df : Table) :
  NoDup (map (fun g => Details.key (Details.line g)) (grouped groupby df))
  /\ forall k,
       In k (map (fun g => Details.key (Details.line g)) (grouped groupby df))
       <-> exists r, In r df /\ group_key groupby r = Some k.
Proof.
  pose proof (grouped_keys_Permutation groupby df) as P. split.
  - apply (Permutation_NoDup (Permutation_sym P)), NoDup_nodup.
  - intros k. split.
    + intros H. apply (Permutation_in _ P) in H.
      apply nodup_In, choose_In in H. exact H.
    + intros H. apply (Permutation_in _ (Permutation_sym P)).
      apply nodup_In, choose_In. exact H.
Qed.

Lemma SFcompare_defined (x y : spec_float) :
  x <> S754_nan -> y <> S754_nan -> SFcompare x y <> None.
Proof.
  destruct x, y; simpl; intros Hx Hy; try discriminate; contradiction.
Qed.

(** Two floats that are not NaN compare one way or the other. *)
Lemma leb_total (a b : float) :
  is_nan a = false -> is_nan b = false ->
  (a <=? b)%float = false -> (b <=? a)%float = true.
Proof.
  intros Ha Hb. rewrite !leb_spec. unfold SFleb.
  rewrite (SFcompare_antisym (Prim2SF a) (Prim2SF b)).
  assert (Na : Prim2SF a <> S754_nan)
    by (intros E; apply is_nan_spec in E; congruence).
  assert (Nb : Prim2SF b <> S754_nan)
    by (intros E; apply is_nan_spec in E; congruence).
  pose proof (SFcompare_defined _ _ Na Nb) as D.
  destruct (SFcompare (Prim2SF a) (Prim2SF b)) as [[]|]; simpl;
    try discriminate; try reflexivity. contradiction.
Qed.

(** X13: the lines of the breakdown whose Sales sum is a number come first,
    each with Sales at least that of the next; the lines whose sum is NaN,
    shown as 0, come last. *)
Theorem grouped_descending (groupby : Dimension) (df : Table) :
  exists numbers nans,
    grouped groupby df = map finish numbers ++ map finish nans
    /\ Sorted (fun a b => (Details.Sales b <=? Details.Sales a)%float = true)
              numbers
    /\ Forall (fun a => is_nan (Details.Sales a) = false) numbers
    /\ Forall (fun a => is_nan (Details.Sales a) = true) nans.
Proof.
  unfold grouped, sort_values.
  set (l := map (aggregate groupby df) (group_keys groupby df)).
  assert (Hn : Forall (fun a => is_nan (Details.Sales a) = false)
                 (filter (fun a => F64.notna (Details.Sales a)) l)).
  { apply Forall_forall. intros a Ha. apply filter_In in Ha.
    destruct Ha as [_ Ha]. unfold F64.notna in Ha.
    now apply negb_true_iff in Ha. }
  eexists. eexists. split; [apply map_app|]. split; [|split].
  - apply (sort_Sorted _ (fun a => is_nan (Details.Sales a) = false));
      [|exact Hn].
    intros a b Ha Hb. apply leb_total; assumption.
  - apply (Permutation_Forall (x := filter (fun a => F64.notna (Details.Sales a)) l));
      [|exact Hn].
    symmetry. apply sort_Permutation.
  - apply Forall_forall. intros a Ha. apply filter_In in Ha. tauto.
Qed.

Lemma fillna_notna (x : float) : is_nan (F64.fillna 0 x) = false.
Proof.
  unfold F64.fillna, F64.isna. destruct (is_nan x) eqn:E; [reflexivity|exact E].
Qed.

(** X14: no cell of the breakdown is NaN. *)
Theorem grouped_no_nan (groupby : Dimension) (df : Table) (g : Details.row) :
  In g (grouped groupby df) ->
  is_nan (Details.Sales (Details.line g)) = false
  /\ is_nan (Details.Profit (Details.line g)) = false
  /\ is_nan (Details.Quantity (Details.line g)) = false
  /\ is_nan (Details.Profit_Margin_pct g) = false.
Proof.
  unfold grouped. rewrite in_map_iff. intros (a & <- & _).
  unfold finish; simpl. repeat split; apply fillna_notna.
Qed.

Lemma grouped_no_nan_witness :
  is_nan (Details.Profit_Margin_pct
            (finish (aggregate By_Customer_ID sample_table (Int 13047)))) = false.
Proof.
  apply (grouped_no_nan By_Customer_ID sample_table). vm_compute. auto.
Defined.

Lemma list_sum_Permutation (l l' : list nat) :
  Permutation l l' -> list_sum l = list_sum l'.
Proof.
  induction 1; simpl; lia.
Qed.

Section OrdersCount.

Variable groupby : Dimension.

(** A line that a group of [keys] counts: its key is one of them and it has
    an order id. *)
Let counted (keys : list label) (r : Row) : bool :=
  match group_key groupby r, Order_ID r with
  | Some k, Some _ => if in_dec label_eq_dec k keys then true else false
  | _, _ => false
  end.

Let orders_of (df : Table) (k : label) : nat :=
  List.length (choose Order_ID (members groupby df k)).

Lemma counted_cons (k0 : label) (keys : list label) (df : Table) :
  ~ In k0 keys ->
  List.length (filter (counted (k0 :: keys)) df)
  = (orders_of df k0 + List.length (filter (counted keys) df))%nat.
Proof.
  intros Hk. unfold orders_of, members.
  induction df as [|r df IH]; [reflexivity|].
  cbn [filter].
  destruct (group_key groupby r) as [k|] eqn:Ek.
  2:{ replace (counted (k0 :: keys) r) with false
        by (unfold counted; rewrite Ek; reflexivity).
      replace (counted keys r) with false
        by (unfold counted; rewrite Ek; reflexivity).
      destruct (key_eq_dec None (Some k0)); [discriminate|exact IH]. }
  destruct (Order_ID r) as [o|] eqn:Eo.
  2:{ replace (counted (k0 :: keys) r) with false
        by (unfold counted; rewrite Ek, Eo; reflexivity).
      replace (counted keys r) with false
        by (unfold counted; rewrite Ek, Eo; reflexivity).
      destruct (key_eq_dec (Some k) (Some k0)); [|exact IH].
      cbn [choose]. rewrite Eo. exact IH. }
  destruct (label_eq_dec k k0) as [->|Nk].
  - replace (counted (k0 :: keys) r) with true.
    2:{ unfold counted. rewrite Ek, Eo.
        destruct (in_dec label_eq_dec k0 (k0 :: keys)) as [_|C];
          [reflexivity | exfalso; apply C; now left]. }
    replace (counted keys r) with false.
    2:{ unfold counted. rewrite Ek, Eo.
        destruct (in_dec label_eq_dec k0 keys); [contradiction|reflexivity]. }
    destruct (key_eq_dec (Some k0) (Some k0)); [|contradiction].
    cbn [choose]. rewrite Eo. cbn [List.length]. rewrite IH. lia.
  - replace (counted (k0 :: keys) r) with (counted keys r).
    2:{ unfold counted. rewrite Ek, Eo.
        destruct (in_dec label_eq_dec k (k0 :: keys)) as [[E|H]|H];
          destruct (in_dec label_eq_dec k keys) as [H'|H'];
          try reflexivity; try congruence; try contradiction.
        exfalso. apply H. now right. }
    destruct (key_eq_dec (Some k) (Some k0)) as [E|_]; [congruence|].
    destruct (counted keys r); cbn [List.length]; rewrite IH; lia.
Qed.

Lemma orders_sum (keys : list label) (df : Table) :
  NoDup keys ->
  list_sum (map (orders_of df) keys) = List.length (filter (counted keys) df).
Proof.
  induction 1 as [|k0 keys Hk Hn IH].
  - symmetry. rewrite filter_none; [reflexivity|].
    intros r _. unfold counted.
    destruct (group_key groupby r), (Order_ID r); reflexivity.
  - rewrite counted_cons by assumption. rewrite <- IH. reflexivity.
Qed.

(** X15: the Orders of the breakdown add up to the number of lines of the
    table that have a grouping value and an order id: each such line is
    counted once, whether or not its order id occurs on other lines. *)
Theorem grouped_orders_total (df : Table) :
  list_sum (map (fun g => Details.Orders (Details.line g)) (grouped groupby df))
  = List.length
      (filter (fun r => match group_key groupby r, Order_ID r with
                        | Some _, Some _ => true
                        | _, _ => false
                        end) df).
Proof.
  unfold grouped. rewrite map_map. simpl.
  change (fun x : Details.agg => Details.Orders x) with Details.Orders.
  rewrite (list_sum_Permutation _ _
             (Permutation_map Details.Orders (sort_values_Permutation _))).
  rewrite map_map. simpl.
  change (fun x : label =>
            List.length (choose Order_ID (members groupby df x)))
    with (orders_of df).
  unfold group_keys.
  rewrite (list_sum_Permutation _ _
             (Permutation_map (orders_of df) (sort_Permutation label_leb _))).
  rewrite orders_sum by apply NoDup_nodup.
  f_equal. apply filter_ext_in. intros r Hr. unfold counted.
  destruct (group_key groupby r) as [k|] eqn:Ek; [|reflexivity].
  destruct (Order_ID r); [|reflexivity].
  destruct (in_dec label_eq_dec k _) as [_|C]; [reflexivity|].
  exfalso. apply C. apply nodup_In, choose_In. exists r. auto.
Qed.

End OrdersCount.

(** X16: the two counts of the KPI summary are at most the number of lines,
    and a table with a line has at least one customer. *)
Theorem kpi_counts_bounded (df : Table) :
  (total_orders (calculate_kpis df) <= List.length df)%nat
  /\ (total_customers (calculate_kpis df) <= List.length df)%nat
  /\ (df <> [] -> 1 <= total_customers (calculate_kpis df))%nat.
Proof.
  unfold calculate_kpis, nunique; simpl. repeat split.
  - transitivity (List.length (choose Order_ID df)).
    + apply NoDup_incl_length; [apply NoDup_nodup|].
      intros x. apply nodup_In.
    + clear. induction df as [|r df IH]; simpl; [lia|].
      destruct (Order_ID r); simpl; lia.
  - rewrite <- (length_map Customer_ID df).
    apply NoDup_incl_length; [apply NoDup_nodup|].
    intros x. apply nodup_In.
  - destruct df as [|r df]; [congruence|]. intros _.
    assert (H : In (Customer_ID r) (nodup Z.eq_dec (map Customer_ID (r :: df))))
      by (apply nodup_In; now left).
    destruct (nodup Z.eq_dec (map Customer_ID (r :: df))); [destruct H|].
    simpl. lia.
Qed.

(** X17: a chart table of Sales by a column ([monthly] by Year-Month, [mix]
    by Segment) has one line for each value the column takes in the table,
    in ascending order of the values, and none for null. *)
Theorem sales_by_keys (key : Row -> option label) (df : Table) :
  NoDup (map fst (sales_by key df))
  /\ Sorted (fun a b => label_leb a b = true) (map fst (sales_by key df))
  /\ forall k, In k (map fst (sales_by key df))
               <-> exists r, In r df /\ key r = Some k.
Proof.
  unfold sales_by. rewrite map_map. simpl. rewrite map_id.
  repeat split.
  - apply (Permutation_NoDup (l := nodup label_eq_dec (choose key df))).
    + symmetry. apply sort_Permutation.
    + apply NoDup_nodup.
  - apply (sort_Sorted _ (fun _ => True)).
    + intros a b _ _. apply label_leb_total.
    + apply Forall_forall. auto.
  - intros H. apply sort_In, nodup_In, choose_In in H. exact H.
  - intros H. apply sort_In, nodup_In, choose_In. exact H.
Qed.

(** ** Export *)

(** X18: writing a frame without its index after [reset_index] gives the
    sheet that writing the frame itself with its index would give, when the
    index has a name: the download loses nothing by [index=False]. *)
Theorem reset_index_then_export (df : DataFrame) (name : string) :
  index_name df = Some name ->
  to_excel false (reset_index df) = to_excel true df.
Proof.
  intros E. unfold to_excel, reset_index. simpl. rewrite E.
  rewrite renumber_values. reflexivity.
Qed.

Lemma reset_index_then_export_witness :
  to_excel false (reset_index sample_frame) = to_excel true sample_frame.
Proof.
  apply (reset_index_then_export sample_frame "Region"). reflexivity.
Defined.

(** ** What-If page *)

Lemma slider_positions (p : Z) : -30 <= p <= 30 -> In p slider.
Proof.
  intros H. unfold slider. apply in_map_iff.
  exists (Z.to_nat (p + 30)). split; [lia|].
  apply in_seq. lia.
Qed.

(** X19: at every position of the price slider the factor is positive, so
    [max(factor, 0)] leaves it as it is and the estimate is the current
    value times the factor; the factor is above 1 for every price cut, 1
    for no change and below 1 for every price rise. *)
Theorem factor_on_slider (filtered_df : Table) (price_change : Z) :
  -30 <= price_change <= 30 ->
  max0 (factor price_change) = factor price_change
  /\ est_sales (what_if filtered_df price_change)
     = (current_sales (what_if filtered_df price_change)
        * factor price_change)%float
  /\ est_profit (what_if filtered_df price_change)
     = (current_profit (what_if filtered_df price_change)
        * factor price_change)%float
  /\ (price_change < 0 -> (1 <? factor price_change)%float = true)
  /\ (price_change = 0 -> factor price_change = 1%float)
  /\ (0 < price_change -> (factor price_change <? 1)%float = true).
Proof.
  intros H.
  assert (C : forallb (fun p =>
                negb (factor p <? 0)%float
                && (if p <? 0 then (1 <? factor p)%float
                    else if p =? 0 then true else (factor p <? 1)%float))
              slider = true) by (vm_compute; reflexivity).
  rewrite forallb_forall in C. specialize (C _ (slider_positions _ H)).
  apply andb_true_iff in C. destruct C as [C1 C2].
  apply negb_true_iff in C1.
  assert (M : max0 (factor price_change) = factor price_change)
    by (unfold max0; rewrite C1; reflexivity).
  split; [exact M|]. split; [simpl; rewrite M; reflexivity|].
  split; [simpl; rewrite M; reflexivity|].
  repeat split.
  - intros N. apply Z.ltb_lt in N. rewrite N in C2. exact C2.
  - intros ->. reflexivity.
  - intros N. destruct (price_change <? 0) eqn:E1; [apply Z.ltb_lt in E1; lia|].
    destruct (price_change =? 0) eqn:E2; [apply Z.eqb_eq in E2; lia|]. exact C2.
Qed.

Lemma factor_on_slider_witness :
  est_sales (what_if sample_table 10)
  = (current_sales (what_if sample_table 10) * factor 10)%float
  /\ (factor 10 <? 1)%float = true.
Proof.
  destruct (factor_on_slider sample_table 10) as (_ & E & _ & _ & _ & R); [lia|].
  split; [exact E | apply R; lia].
Defined.

(** ** Calendar columns *)

Lemma In_range (a n : nat) (z : Z) :
  In z (map Z.of_nat (seq a n)) <-> Z.of_nat a <= z < Z.of_nat a + Z.of_nat n.
Proof.
  rewrite in_map_iff. split.
  - intros (k & <- & Hk). apply in_seq in Hk. lia.
  - intros H. exists (Z.to_nat z). split; [lia|]. apply in_seq. lia.
Qed.

Lemma is_leap_period (y k : Z) :
  Gregorian.is_leap (y + 400 * k) = Gregorian.is_leap y.
Proof.
  unfold Gregorian.is_leap.
  replace (y + 400 * k) with (y + (100 * k) * 4) at 1 by lia.
  replace (y + 400 * k) with (y + (4 * k) * 100) at 1 by lia.
  replace (y + 400 * k) with (y + k * 400) by lia.
  rewrite !Z.mod_add by discriminate. reflexivity.
Qed.

Lemma days_in_month_period (y k m : Z) :
  Gregorian.days_in_month (y + 400 * k) m = Gregorian.days_in_month y m.
Proof. unfold Gregorian.days_in_month. rewrite is_leap_period. reflexivity. Qed.

Lemma leaps_before_period (y k : Z) :
  Gregorian.leaps_before (y + 400 * k) = Gregorian.leaps_before y + 97 * k.
Proof.
  unfold Gregorian.leaps_before.
  replace (y + 400 * k - 1) with (y - 1 + (100 * k) * 4) at 1 by lia.
  replace (y + 400 * k - 1) with (y - 1 + (4 * k) * 100) at 1 by lia.
  replace (y + 400 * k - 1) with (y - 1 + k * 400) by lia.
  rewrite !Z.div_add by discriminate. lia.
Qed.

(** The calendar repeats every 400 years, which are 146097 days. *)
Lemma day_number_period (y k m d : Z) :
  Gregorian.day_number (y + 400 * k) m d
  = Gregorian.day_number y m d + 146097 * k.
Proof.
  unfold Gregorian.day_number, Gregorian.days_before_year,
    Gregorian.days_before_month.
  rewrite leaps_before_period.
  rewrite (map_ext _ _ (days_in_month_period y k)). lia.
Qed.

Lemma civil_period (z k : Z) :
  Calendar.civil (z + 146097 * k)
  = (fst (Calendar.civil z) + 400 * k, snd (Calendar.civil z)).
Proof.
  unfold Calendar.civil.
  replace (z + 146097 * k + 719468) with (z + 719468 + k * 146097) by lia.
  rewrite Z.div_add by discriminate.
  set (era := (z + 719468) / 146097).
  replace (z + 719468 + k * 146097 - (era + k) * 146097)
    with (z + 719468 - era * 146097) by lia.
  set (doe := z + 719468 - era * 146097).
  set (yoe := (doe - doe / 1460 + doe / 36524 - doe / 146096) / 365).
  set (doy := doe - (365 * yoe + yoe / 4 - yoe / 100)).
  set (mp := (5 * doy + 2) / 153).
  cbv zeta. simpl fst. simpl snd.
  destruct (_ <=? 2); f_equal; lia.
Qed.

(** [Calendar.civil] is right on every day of the years 0 to 399. *)
Lemma civil_agrees_era :
  forallb Gregorian.civil_agrees (map Z.of_nat (seq 0 400)) = true.
Proof. vm_compute. reflexivity. Qed.

(** A year has 365 days, and 366 when it is a leap year. *)
Lemma year_length (y : Z) :
  Gregorian.days_before_year (y + 1)
  = Gregorian.days_before_year y + Gregorian.days_in_year y.
Proof.
  unfold Gregorian.days_before_year, Gregorian.days_in_year,
    Gregorian.leaps_before, Gregorian.is_leap.
  replace (y + 1 - 1) with y by lia.
  generalize ((1970 - 1) / 4 - (1970 - 1) / 100 + (1970 - 1) / 400). intros c.
  destruct (y mod 4 =? 0) eqn:E4, (y mod 100 =? 0) eqn:E100,
           (y mod 400 =? 0) eqn:E400;
    cbn [andb orb negb];
    rewrite ?Z.eqb_eq, ?Z.eqb_neq in E4, E100, E400;
    Z.div_mod_to_equations; lia.
Qed.

(** The year and the month that [Calendar.civil] reads off a day number are
    those of the day in the Gregorian calendar. *)
Lemma civil_day_number (y m d : Z) :
  Gregorian.valid y m d ->
  Calendar.civil (Gregorian.day_number y m d) = (y, m).
Proof.
  intros [Hm Hd].
  pose proof (Z.div_mod y 400 ltac:(lia)) as Ey.
  pose proof (Z.mod_pos_bound y 400 ltac:(lia)) as By.
  set (y0 := y mod 400) in *. set (k := y / 400) in *.
  assert (Ey' : y = y0 + 400 * k) by lia. clearbody y0 k. clear Ey. subst y.
  rewrite days_in_month_period in Hd.
  rewrite day_number_period, civil_period.
  pose proof civil_agrees_era as A. rewrite forallb_forall in A.
  specialize (A y0 ltac:(apply In_range; lia)).
  unfold Gregorian.civil_agrees in A. rewrite forallb_forall in A.
  specialize (A m ltac:(apply In_range; lia)).
  rewrite forallb_forall in A.
  specialize (A d ltac:(apply In_range; lia)).
  destruct (Calendar.civil (Gregorian.day_number y0 m d)) as [y' m'].
  apply andb_true_iff in A. destruct A as [Ay Am].
  apply Z.eqb_eq in Ay, Am. subst. reflexivity.
Qed.

(** X20: a line of a loaded table whose Order Date falls, at any time of the
    day, on day [d] of month [m] of year [y] of the Gregorian calendar has
    the Year [y], the Month [m], the Quarter [(m - 1) / 3 + 1], which is one
    of 1 to 4, and as Year-Month label the digits of [y], a hyphen and the
    digits of [m]. *)
Theorem loaded_calendar
    (coerce_numeric : cell -> scalar) (coerce_datetime : cell -> option Z)
    (df : Sheet) (t : Table) (r : Row) (y m d : Z) :
  load_and_prepare coerce_numeric coerce_datetime df = Some t -> In r t ->
  Gregorian.valid y m d ->
  Calendar.to_datetime (Gregorian.day_number y m d) <= Order_Date r
    < Calendar.to_datetime (Gregorian.day_number y m d + 1) ->
  Year r = y
  /\ Month r = m
  /\ Quarter r = (m - 1) / 3 + 1
  /\ 1 <= Quarter r <= 4
  /\ Year_Month r
     = (Calendar.decimal 4 y ++ "-" ++ Calendar.decimal 2 m)%string.
Proof.
  intros E Hr V Ht.
  destruct (loaded_row _ _ _ _ _ E Hr) as (raw & t0 & cid & _ & _ & _ & ->).
  cbn [Order_Date prepare] in Ht.
  cbn [Year Month Quarter Year_Month prepare].
  assert (D : Calendar.days t0 = Gregorian.day_number y m d).
  { unfold Calendar.days. unfold Calendar.to_datetime in Ht.
    symmetry.
    apply (Z.div_unique _ _ _
             (t0 - Gregorian.day_number y m d * Calendar.ns_per_day)).
    - left. unfold Calendar.ns_per_day in *. lia.
    - unfold Calendar.ns_per_day in *. lia. }
  pose proof (civil_day_number y m d V) as C.
  assert (Ey : Calendar.year t0 = y)
    by (unfold Calendar.year; rewrite D, C; reflexivity).
  assert (Em : Calendar.month t0 = m)
    by (unfold Calendar.month; rewrite D, C; reflexivity).
  unfold Calendar.year_month, Calendar.quarter. rewrite Ey, Em.
  destruct V as [Hm _].
  repeat split; try reflexivity; Z.div_mod_to_equations; lia.
Qed.

Lemma loaded_calendar_witness :
  load_and_prepare no_number no_date sample_sheet = Some sample_table
  /\ In lantern_line sample_table
  /\ Gregorian.day_number 2011 3 9 = 15042
  /\ Year lantern_line = 2011
  /\ Month lantern_line = 3
  /\ Quarter lantern_line = 1
  /\ Year_Month lantern_line = "2011-03"%string.
Proof.
  split; [exact sample_load|]. split; [simpl; auto|]. split; [reflexivity|].
  destruct (loaded_calendar no_number no_date sample_sheet sample_table
              lantern_line 2011 3 9) as (Hy & Hm & Hq & _ & Hl).
  - exact sample_load.
  - simpl; auto.
  - split; [lia|]. split; [lia|]. vm_compute. discriminate.
  - split; [vm_compute; discriminate | reflexivity].
  - repeat split; assumption.
Defined.
